(** * App Check attestation providers (packages/app-check/src/providers.ts)

    A shallow embedding of the two provider classes, [ReCaptchaV3Provider]
    and [CustomProvider], and of the throttle record the first one keeps.

    The methods are asynchronous and talk to collaborators that live in
    other files (the reCAPTCHA client, the exchange endpoint, the backoff
    calculator, the JWT decoder) and to the clock.  Every such answer is
    read from a [World]; every collaborator call is appended to a log, so
    that "no exchange was attempted" is a statement about that log.  One
    [World] describes what the outside answers during one method call. *)

From stdpp Require Import base option list strings gmap.
From Stdlib Require Import ZArith Lia.

Open Scope Z_scope.

(** ** JavaScript values *)

(** The doubles that occur here are HTTP statuses and epoch timestamps:
    integers, or [NaN] when a coercion fails. *)
Inductive number :=
  | Num (z : Z)
  | NaN.

Inductive jsval :=
  | JUndefined
  | JNull
  | JBool (b : bool)
  | JNumber (n : number)
  | JString (s : string).

#[global] Instance number_eq_dec : EqDecision number.
Proof. solve_decision. Defined.

#[global] Instance jsval_eq_dec : EqDecision jsval.
Proof. solve_decision. Defined.

(** [a === b] on numbers: [NaN] is equal to nothing, itself included. *)
Definition strict_eq (a b : number) : bool :=
  match a, b with
  | Num x, Num y => x =? y
  | _, _ => false
  end.

(** [a < b] and [a > b] on numbers: every comparison with [NaN] is false. *)
Definition number_lt (a b : number) : bool :=
  match a, b with
  | Num x, Num y => x <? y
  | _, _ => false
  end.

Definition number_gt (a b : number) : bool := number_lt b a.

Definition number_mul (a b : number) : number :=
  match a, b with
  | Num x, Num y => Num (x * y)
  | _, _ => NaN
  end.

(** A plain object: own properties by name.  Reading a property that is
    not there gives [undefined]. *)
Definition get_property (o : gmap string jsval) (k : string) : jsval :=
  default JUndefined (o !! k).

(** A function object: the text [toString()] gives for it, and the
    identity of the object itself. *)
Record JsFunction := { toString : string; fn_ref : nat }.

(** ** Application context *)

Record FirebaseApp := { app_name : string }.

(** [_getProvider(app, name)] of @firebase/app, kept as a constructor. *)
Inductive Provider :=
  | _getProvider (app : FirebaseApp) (name : string).

(** [getExchangeRecaptchaTokenRequest(app, token)] of ./client, kept as a
    constructor. *)
Inductive ExchangeRequest :=
  | getExchangeRecaptchaTokenRequest (app : FirebaseApp) (reCAPTCHAToken : string).

(** [AppCheckTokenInternal] and the token a custom callback hands back are
    plain objects. *)
Abbreviation AppCheckTokenInternal := (gmap string jsval).

(** ** Errors *)

(** The members of the [AppCheckError] enum of ./errors that this file
    names. *)
Inductive AppCheckError :=
  | FETCH_STATUS_ERROR
  | THROTTLED
  | USE_BEFORE_ACTIVATION
  | RECAPTCHA_ERROR.

(** The [code] property of an error object received from a collaborator:
    strictly equal to a member of [AppCheckError], some other string, or
    not there. *)
Inductive ErrorCode :=
  | AppCheckCode (c : AppCheckError)
  | OtherCode (s : string)
  | NoCode.

(** [(e as FirebaseError).code === AppCheckError.FETCH_STATUS_ERROR] *)
Definition is_FETCH_STATUS_ERROR (c : ErrorCode) : bool :=
  match c with
  | AppCheckCode FETCH_STATUS_ERROR => true
  | _ => false
  end.

(** An error object as the exchange collaborator rejects with. *)
Record FirebaseError := {
  code : ErrorCode;
  message : string;
  customData : option (gmap string jsval)
}.

(** [e.customData?.httpStatus] *)
Definition optional_httpStatus (e : FirebaseError) : jsval :=
  match customData e with
  | None => JUndefined
  | Some d => get_property d "httpStatus"
  end.

(** [new Date(ms).toLocaleString()], kept as a constructor. *)
Inductive DateString :=
  | toLocaleString (ms : Z).

(** The second argument of [ERROR_FACTORY.create]. *)
Inductive ErrorParams :=
  | NoParams
  | AppNameParams (appName : string)
  | ThrottledParams (time : DateString) (httpStatus : number).

(** What a method can throw: an error made by [ERROR_FACTORY.create], an
    error object received from a collaborator and thrown again as it is, or
    any other value a callback rejects with. *)
Inductive exn :=
  | ERROR_FACTORY_create (c : AppCheckError) (params : ErrorParams)
  | Thrown (e : FirebaseError)
  | ThrownValue (v : jsval).

(** The two ways a promise settles. *)
Inductive Settled (E A : Type) :=
  | Resolved (a : A)
  | Rejected (e : E).
Arguments Resolved {E A} a.
Arguments Rejected {E A} e.

(** ** The outside world during one call *)

Record World := {
  (** [Date.now()]: the k-th reading taken during the call *)
  w_clock : nat -> Z;
  (** [getReCAPTCHAToken(app)] of ./recaptcha *)
  w_getReCAPTCHAToken : FirebaseApp -> Settled jsval string;
  (** [exchangeToken(request, platformLoggerProvider)] of ./client *)
  w_exchangeToken :
    ExchangeRequest -> Provider -> Settled FirebaseError AppCheckTokenInternal;
  (** [calculateBackoffMillis(backoffCount, intervalMillis, backoffFactor)]
      of @firebase/util, jitter included *)
  w_calculateBackoffMillis : Z -> Z -> Z -> Z;
  (** [issuedAtTime(token)] of @firebase/util: the [iat] claim or [null] *)
  w_issuedAtTime : jsval -> option number;
  (** the user-supplied callback of a custom provider *)
  w_call : JsFunction -> Settled exn (gmap string jsval);
  (** the language's StringToNumber *)
  w_StringToNumber : string -> number
}.

(** [Number(v)] *)
Definition Number (w : World) (v : jsval) : number :=
  match v with
  | JUndefined => NaN
  | JNull => Num 0
  | JBool true => Num 1
  | JBool false => Num 0
  | JNumber n => n
  | JString s => w_StringToNumber w s
  end.

(** Calls to collaborators, in the order they are made. *)
Inductive event :=
  | Ev_getReCAPTCHAToken (app : FirebaseApp)
  | Ev_exchangeToken (request : ExchangeRequest) (platformLoggerProvider : Provider)
  | Ev_calculateBackoffMillis (backoffCount intervalMillis backoffFactor : Z)
  | Ev_initializeRecaptcha (app : FirebaseApp) (siteKey : string)
  | Ev_call (f : JsFunction).

Definition is_exchange (ev : event) : bool :=
  match ev with Ev_exchangeToken _ _ => true | _ => false end.

Definition exchange_attempts (l : list event) : nat :=
  length (List.filter is_exchange l).

Arguments exchange_attempts : simpl never.

(** ** The monad of a method body

    A method runs on [this], reads the clock and appends to the call log;
    it completes normally or by throwing. *)

Record Run (S : Type) := mkRun {
  this : S;
  ticks : nat;
  calls : list event
}.
Arguments mkRun {S} this ticks calls.
Arguments this {S} r.
Arguments ticks {S} r.
Arguments calls {S} r.

Inductive Completion (A : Type) :=
  | Return (a : A)
  | Throw (e : exn).
Arguments Return {A} a.
Arguments Throw {A} e.

Definition M (S A : Type) : Type := World -> Run S -> Completion A * Run S.

#[global] Instance M_ret {S} : MRet (M S) :=
  fun A a _ r => (Return a, r).

#[global] Instance M_bind {S} : MBind (M S) :=
  fun A B k m w r =>
    match m w r with
    | (Return a, r') => k a w r'
    | (Throw e, r') => (Throw e, r')
    end.

Definition throw {S A} (e : exn) : M S A := fun _ r => (Throw e, r).

Definition get_this {S} : M S S := fun _ r => (Return (this r), r).

Definition set_this {S} (s : S) : M S unit :=
  fun _ r => (Return tt, mkRun s (ticks r) (calls r)).

Definition ask {S} : M S World := fun w r => (Return w, r).

Definition record {S} (ev : event) : M S unit :=
  fun _ r => (Return tt, mkRun (this r) (ticks r) (calls r ++ [ev])).

(** [Date.now()] *)
Definition Date_now {S} : M S Z :=
  fun w r => (Return (w_clock w (ticks r)), mkRun (this r) (Datatypes.S (ticks r)) (calls r)).

(** A fresh call on a provider: no clock reading and no collaborator call
    made yet. *)
Definition exec {S A} (m : M S A) (w : World) (p : S) : Completion A * Run S :=
  m w (mkRun p 0%nat []).

(** [r], with further collaborator calls appended to its log. *)
Definition logged {S} (evs : list event) (r : Run S) : Run S :=
  mkRun (this r) (ticks r) (calls r ++ evs).

(** ** Constants *)

(** Modelled from the spec: ./constants is not among the sources; the
    spec's scenario gives the penalty as 86400000 ms, one day. *)
Definition ONE_DAY : Z := 24 * 60 * 60 * 1000.

(** ** ReCaptchaV3Provider *)

(** [ThrottleData] of ./types. *)
Record ThrottleData := {
  allowRequestsAfter : Z;
  backoffCount : Z;
  httpStatus : number
}.

Module ReCaptchaV3Provider.

Record t := {
  _app : option FirebaseApp;
  _platformLoggerProvider : option Provider;
  _throttleData : option ThrottleData;
  _siteKey : string
}.

(** [new ReCaptchaV3Provider(siteKey)] *)
Definition new (siteKey : string) : t :=
  {| _app := None; _platformLoggerProvider := None;
     _throttleData := None; _siteKey := siteKey |}.

(** [this._throttleData = td] *)
Definition with_throttleData (td : option ThrottleData) (p : t) : t :=
  {| _app := _app p; _platformLoggerProvider := _platformLoggerProvider p;
     _throttleData := td; _siteKey := _siteKey p |}.

Definition set_throttleData (td : option ThrottleData) : M t unit :=
  p ← get_this; set_this (with_throttleData td p).

(** [getReCAPTCHAToken(app)], awaited. *)
Definition getReCAPTCHAToken (app : FirebaseApp) : M t (Settled jsval string) :=
  record (Ev_getReCAPTCHAToken app);;
  w ← ask; mret (w_getReCAPTCHAToken w app).

(** [exchangeToken(request, platformLoggerProvider)], awaited. *)
Definition exchangeToken (request : ExchangeRequest) (plp : Provider)
  : M t (Settled FirebaseError AppCheckTokenInternal) :=
  record (Ev_exchangeToken request plp);;
  w ← ask; mret (w_exchangeToken w request plp).

Definition calculateBackoffMillis (count intervalMillis backoffFactor : Z) : M t Z :=
  record (Ev_calculateBackoffMillis count intervalMillis backoffFactor);;
  w ← ask; mret (w_calculateBackoffMillis w count intervalMillis backoffFactor).

Definition THROTTLED_error (td : ThrottleData) : exn :=
  ERROR_FACTORY_create THROTTLED
    (ThrottledParams (toLocaleString (allowRequestsAfter td)) (httpStatus td)).

(** [_setBackoff(httpStatus)] *)
Definition _setBackoff (status : number) : M t ThrottleData :=
  if strict_eq status (Num 404) || strict_eq status (Num 403) then
    now ← Date_now;
    let td := {| backoffCount := 1;
                 allowRequestsAfter := now + ONE_DAY;
                 httpStatus := status |} in
    set_throttleData (Some td);;
    mret td
  else
    p ← get_this;
    let count := match _throttleData p with
                 | Some td => backoffCount td
                 | None => 0
                 end in
    backoffMillis ← calculateBackoffMillis count 1000 2;
    now ← Date_now;
    let td := {| backoffCount := count + 1;
                 allowRequestsAfter := now + backoffMillis;
                 httpStatus := status |} in
    set_throttleData (Some td);;
    mret td.

(** [getToken()] *)
Definition getToken : M t AppCheckTokenInternal :=
  p ← get_this;
  match _throttleData p with
  | Some td =>
      now ← Date_now;
      if now - allowRequestsAfter td >? 0
      then set_throttleData None
      else throw (THROTTLED_error td)
  | None => mret tt
  end;;
  p ← get_this;
  match _app p, _platformLoggerProvider p with
  | Some app, Some plp =>
      attested ← getReCAPTCHAToken app;
      match attested with
      | Rejected _e => throw (ERROR_FACTORY_create RECAPTCHA_ERROR NoParams)
      | Resolved attestedClaimsToken =>
          result ← exchangeToken
                     (getExchangeRecaptchaTokenRequest app attestedClaimsToken) plp;
          match result with
          | Resolved result => mret result
          | Rejected e =>
              if is_FETCH_STATUS_ERROR (code e) then
                w ← ask;
                throttleData ← _setBackoff (Number w (optional_httpStatus e));
                throw (THROTTLED_error throttleData)
              else throw (Thrown e)
          end
      end
  | _, _ => throw (ERROR_FACTORY_create USE_BEFORE_ACTIVATION (AppNameParams ""))
  end.

(** [initialize(app)]; the promise of [initializeRecaptcha] is dropped. *)
Definition initialize (app : FirebaseApp) : M t unit :=
  p ← get_this;
  set_this {| _app := Some app;
              _platformLoggerProvider := Some (_getProvider app "platform-logger");
              _throttleData := _throttleData p; _siteKey := _siteKey p |};;
  record (Ev_initializeRecaptcha app (_siteKey p)).

(** *** Notions the properties are stated with *)

(** The test of line 125. *)
Definition hard_block (status : number) : bool :=
  strict_eq status (Num 404) || strict_eq status (Num 403).

(** The record a hard-block failure leaves. *)
Definition one_day_block (now : Z) (status : number) : ThrottleData :=
  {| allowRequestsAfter := now + ONE_DAY; backoffCount := 1; httpStatus := status |}.

(** The backoff count read at line 136. *)
Definition previous_backoffCount (p : t) : Z :=
  match _throttleData p with
  | Some td => backoffCount td
  | None => 0
  end.

(** The record a transient failure leaves. *)
Definition escalated (w : World) (now : Z) (previous : Z) (status : number)
  : ThrottleData :=
  {| allowRequestsAfter := now + w_calculateBackoffMillis w previous 1000 2;
     backoffCount := previous + 1;
     httpStatus := status |}.

(** The state a call continues from when the stored window has passed. *)
Definition cleared (r : Run t) : Run t :=
  mkRun (with_throttleData None (this r)) (S (ticks r)) (calls r).

(** The state a call continues from once it is past the throttle check. *)
Definition entered (r : Run t) : Run t :=
  match _throttleData (this r) with
  | Some _ => cleared r
  | None => r
  end.

(** The call is let through: no record, or a record whose time has passed. *)
Definition admitted (w : World) (r : Run t) : Prop :=
  match _throttleData (this r) with
  | Some td => w_clock w (ticks r) - allowRequestsAfter td > 0
  | None => True
  end.

(** Both back-references are set. *)
Definition initialized (p : t) : Prop :=
  is_Some (_app p) /\ is_Some (_platformLoggerProvider p).

(** Whether a call that is past the throttle check gets as far as the
    exchange: the provider is initialised and the attestation resolves. *)
Definition exchange_reached (w : World) (p : t) : bool :=
  match _app p, _platformLoggerProvider p with
  | Some app, Some _ =>
      match w_getReCAPTCHAToken w app with
      | Resolved _ => true
      | Rejected _ => false
      end
  | _, _ => false
  end.

(** The [httpStatus] of the failure is not there: no [customData], no such
    property in it, or the property is [undefined]. *)
Definition status_missing (e : FirebaseError) : Prop :=
  customData e = None \/
  exists d, customData e = Some d /\
            (d !! "httpStatus" = None \/ d !! "httpStatus" = Some JUndefined).

(** What a call on a provider without a throttle record comes to. *)
Inductive attempt (w : World) (r : Run t)
  : Completion AppCheckTokenInternal * Run t -> Prop :=
  | attempt_uninitialized :
      ~ initialized (this r) ->
      attempt w r
        (Throw (ERROR_FACTORY_create USE_BEFORE_ACTIVATION (AppNameParams "")), r)
  | attempt_attestation_rejected app plp reason :
      _app (this r) = Some app ->
      _platformLoggerProvider (this r) = Some plp ->
      w_getReCAPTCHAToken w app = Rejected reason ->
      attempt w r
        (Throw (ERROR_FACTORY_create RECAPTCHA_ERROR NoParams),
         logged [Ev_getReCAPTCHAToken app] r)
  | attempt_exchanged app plp tok result :
      _app (this r) = Some app ->
      _platformLoggerProvider (this r) = Some plp ->
      w_getReCAPTCHAToken w app = Resolved tok ->
      w_exchangeToken w (getExchangeRecaptchaTokenRequest app tok) plp
        = Resolved result ->
      attempt w r
        (Return result,
         logged [Ev_getReCAPTCHAToken app;
                 Ev_exchangeToken (getExchangeRecaptchaTokenRequest app tok) plp] r)
  | attempt_rethrown app plp tok e :
      _app (this r) = Some app ->
      _platformLoggerProvider (this r) = Some plp ->
      w_getReCAPTCHAToken w app = Resolved tok ->
      w_exchangeToken w (getExchangeRecaptchaTokenRequest app tok) plp
        = Rejected e ->
      is_FETCH_STATUS_ERROR (code e) = false ->
      attempt w r
        (Throw (Thrown e),
         logged [Ev_getReCAPTCHAToken app;
                 Ev_exchangeToken (getExchangeRecaptchaTokenRequest app tok) plp] r)
  | attempt_backed_off app plp tok e td r' :
      _app (this r) = Some app ->
      _platformLoggerProvider (this r) = Some plp ->
      w_getReCAPTCHAToken w app = Resolved tok ->
      w_exchangeToken w (getExchangeRecaptchaTokenRequest app tok) plp
        = Rejected e ->
      is_FETCH_STATUS_ERROR (code e) = true ->
      _setBackoff (Number w (optional_httpStatus e)) w
        (logged [Ev_getReCAPTCHAToken app;
                 Ev_exchangeToken (getExchangeRecaptchaTokenRequest app tok) plp] r)
        = (Return td, r') ->
      attempt w r (Throw (THROTTLED_error td), r').

(** The provider a call leaves behind. *)
Definition after {A} (m : M t A) (w : World) (p : t) : t := this (exec m w p).2.

(** A provider is constructed, then [initialize] and [getToken] are called
    on it, one call after the other, each in a world of its own. *)
Inductive reachable : t -> Prop :=
  | reachable_new siteKey : reachable (new siteKey)
  | reachable_initialize p w app :
      reachable p -> reachable (after (initialize app) w p)
  | reachable_getToken p w :
      reachable p -> reachable (after getToken w p).

End ReCaptchaV3Provider.

(** ** CustomProvider *)

(** [CustomProviderOptions] of ./public-types. *)
Record CustomProviderOptions := { opt_getToken : JsFunction }.

Module CustomProvider.

Record t := {
  _app : option FirebaseApp;
  _customProviderOptions : CustomProviderOptions
}.

(** [new CustomProvider(customProviderOptions)] *)
Definition new (customProviderOptions : CustomProviderOptions) : t :=
  {| _app := None; _customProviderOptions := customProviderOptions |}.

(** [this._customProviderOptions.getToken()], awaited. *)
Definition call_getToken (f : JsFunction) : M t (Settled exn (gmap string jsval)) :=
  record (Ev_call f);;
  w ← ask; mret (w_call w f).

(** [issuedAtTime(token)] *)
Definition issuedAtTime (token : jsval) : M t (option number) :=
  w ← ask; mret (w_issuedAtTime w token).

(** The conditional of lines 198-203.  [&&] stops at the first false
    operand, so the clock is read in the test only when the timestamp is
    not [null]; the last operand reads it again. *)
Definition normalize (issuedAtTimeSeconds : option number) : M t number :=
  match issuedAtTimeSeconds with
  | Some seconds =>
      now ← Date_now;
      if number_lt seconds (Num now) && number_gt seconds (Num 0)
      then mret (number_mul seconds (Num 1000))
      else now' ← Date_now; mret (Num now')
  | None => now' ← Date_now; mret (Num now')
  end.

(** [getToken()] *)
Definition getToken : M t AppCheckTokenInternal :=
  p ← get_this;
  match _app p with
  | None => throw (ERROR_FACTORY_create USE_BEFORE_ACTIVATION (AppNameParams ""))
  | Some _ =>
      settled ← call_getToken (opt_getToken (_customProviderOptions p));
      match settled with
      | Rejected e => throw e
      | Resolved customToken =>
          issuedAtTimeSeconds ← issuedAtTime (get_property customToken "token");
          issuedAtTimeMillis ← normalize issuedAtTimeSeconds;
          mret (<["issuedAtTimeMillis" := JNumber issuedAtTimeMillis]> customToken)
      end
  end.

(** [initialize(app)] *)
Definition initialize (app : FirebaseApp) : M t unit :=
  p ← get_this;
  set_this {| _app := Some app; _customProviderOptions := _customProviderOptions p |}.

End CustomProvider.

(** ** isEqual *)

(** The argument of [isEqual] has type [unknown]; [instanceof] tells the
    three cases apart. *)
Inductive unknown :=
  | InstanceOfReCaptchaV3Provider (p : ReCaptchaV3Provider.t)
  | InstanceOfCustomProvider (p : CustomProvider.t)
  | NotAProvider (v : jsval).

(** [ReCaptchaV3Provider.isEqual(otherProvider)] *)
Definition ReCaptchaV3Provider_isEqual
    (self : ReCaptchaV3Provider.t) (otherProvider : unknown) : bool :=
  match otherProvider with
  | InstanceOfReCaptchaV3Provider other =>
      String.eqb (ReCaptchaV3Provider._siteKey self) (ReCaptchaV3Provider._siteKey other)
  | _ => false
  end.

(** [CustomProvider.isEqual(otherProvider)] *)
Definition CustomProvider_isEqual
    (self : CustomProvider.t) (otherProvider : unknown) : bool :=
  match otherProvider with
  | InstanceOfCustomProvider other =>
      String.eqb
        (toString (opt_getToken (CustomProvider._customProviderOptions self)))
        (toString (opt_getToken (CustomProvider._customProviderOptions other)))
  | _ => false
  end.

(** The [AppCheckProvider] interface of ./types has these two
    implementers; [isEqual] dispatches on the receiver's class. *)
Inductive AppCheckProvider :=
  | ReCaptchaV3 (p : ReCaptchaV3Provider.t)
  | Custom (p : CustomProvider.t).

Definition as_unknown (a : AppCheckProvider) : unknown :=
  match a with
  | ReCaptchaV3 p => InstanceOfReCaptchaV3Provider p
  | Custom p => InstanceOfCustomProvider p
  end.

Definition isEqual (a : AppCheckProvider) (otherProvider : unknown) : bool :=
  match a with
  | ReCaptchaV3 p => ReCaptchaV3Provider_isEqual p otherProvider
  | Custom p => CustomProvider_isEqual p otherProvider
  end.

(** ** Sample inputs *)

Module Samples.
Import ReCaptchaV3Provider.

Definition app0 : FirebaseApp := {| app_name := "[DEFAULT]" |}.
Definition plp0 : Provider := _getProvider app0 "platform-logger".

Definition status_failure (status : jsval) : FirebaseError :=
  {| code := AppCheckCode FETCH_STATUS_ERROR;
     message := "fetch status error";
     customData := Some {[ "httpStatus" := status ]} |}.

Definition world
    (now : Z)
    (attestation : Settled jsval string)
    (exchange : Settled FirebaseError AppCheckTokenInternal) : World :=
  {| w_clock := fun _ => now;
     w_getReCAPTCHAToken := fun _ => attestation;
     w_exchangeToken := fun _ _ => exchange;
     w_calculateBackoffMillis := fun count interval factor => interval * factor ^ count;
     w_issuedAtTime := fun _ => None;
     w_call := fun _ => Rejected (ThrownValue JNull);
     w_StringToNumber := fun _ => NaN |}.

Definition token0 : AppCheckTokenInternal :=
  {[ "token" := JString "app-check-token" ]}.

(** An initialised provider holding the throttle record [td]. *)
Definition throttled (td : ThrottleData) : t :=
  {| _app := Some app0; _platformLoggerProvider := Some plp0;
     _throttleData := Some td; _siteKey := "site-key" |}.

Definition until_1000 : ThrottleData :=
  {| allowRequestsAfter := 1000; backoffCount := 1; httpStatus := Num 500 |}.

(** An exchange failure that carries no HTTP status. *)
Definition network_failure : FirebaseError :=
  {| code := OtherCode "fetch-network-error";
     message := "fetch network error";
     customData := Some {[ "originalErrorMessage" := JString "offline" ]} |}.

(** An initialised provider without a throttle record. *)
Definition ready : t :=
  {| _app := Some app0; _platformLoggerProvider := Some plp0;
     _throttleData := None; _siteKey := "site-key" |}.

(** A status failure whose [customData] has no [httpStatus]. *)
Definition statusless_failure : FirebaseError :=
  {| code := AppCheckCode FETCH_STATUS_ERROR;
     message := "fetch status error";
     customData := Some ∅ |}.

(** Two [getToken] calls, the second made once the window set by the first
    has passed; the exchange answers 500 both times. *)
Definition first_failure : World :=
  world 0 (Resolved "attested") (Rejected (status_failure (JNumber (Num 500)))).
Definition second_failure : World :=
  world 5000 (Resolved "attested") (Rejected (status_failure (JNumber (Num 500)))).

Definition callback0 : JsFunction :=
  {| toString := "() => fetchTokenFromServer()"; fn_ref := 1 |}.

Definition custom_ready : CustomProvider.t :=
  {| CustomProvider._app := Some app0;
     CustomProvider._customProviderOptions := {| opt_getToken := callback0 |} |}.

Definition custom_token : gmap string jsval :=
  {[ "token" := JString "header.payload.signature";
     "expireTimeMillis" := JNumber (Num 1700003600000) ]}.

(** The callback resolves with [custom_token], whose [iat] claim is
    [iat]; the clock stands at [now]. *)
Definition custom_world (now : Z) (iat : option number) : World :=
  {| w_clock := fun _ => now;
     w_getReCAPTCHAToken := fun _ => Rejected JNull;
     w_exchangeToken := fun _ _ => Resolved ∅;
     w_calculateBackoffMillis := fun count interval factor => interval * factor ^ count;
     w_issuedAtTime := fun _ => iat;
     w_call := fun _ => Resolved custom_token;
     w_StringToNumber := fun _ => NaN |}.

End Samples.

(** ** A provider of either class, after a call *)

(** [a.getToken()] and [a.initialize(app)] on a provider of either class:
    the provider the call leaves. *)
Definition after_getToken (w : World) (a : AppCheckProvider) : AppCheckProvider :=
  match a with
  | ReCaptchaV3 p => ReCaptchaV3 (this (exec ReCaptchaV3Provider.getToken w p).2)
  | Custom p => Custom (this (exec CustomProvider.getToken w p).2)
  end.

Definition after_initialize (app : FirebaseApp) (w : World) (a : AppCheckProvider)
  : AppCheckProvider :=
  match a with
  | ReCaptchaV3 p => ReCaptchaV3 (this (exec (ReCaptchaV3Provider.initialize app) w p).2)
  | Custom p => Custom (this (exec (CustomProvider.initialize app) w p).2)
  end.

(** * The rollup configurations
      (packages/functions-compat/rollup.config.js,
       packages/analytics-compat/rollup.config.js)

    Both files compute [deps] from package.json and give every build the
    same [external] predicate. *)

Module Rollup.

(** The two properties of package.json that are read; either may be
    missing. *)
Record PackageJson := {
  peerDependencies : option (gmap string string);
  dependencies : option (gmap string string)
}.

(** [Object.assign({}, a, b)]: the properties of [a], then those of [b]
    over them; a source that is [undefined] adds nothing. *)
Definition Object_assign (a b : option (gmap string string)) : gmap string string :=
  default ∅ b ∪ default ∅ a.

(** [Object.keys(o)].  The order of the keys is not modelled; [some]
    below does not depend on it. *)
Definition Object_keys (o : gmap string string) : list string :=
  (map_to_list o).*1.

(** [const deps = Object.keys(Object.assign({}, pkg.peerDependencies,
    pkg.dependencies))] *)
Definition deps (pkg : PackageJson) : list string :=
  Object_keys (Object_assign (peerDependencies pkg) (dependencies pkg)).

(** [id.startsWith(s)] *)
Definition startsWith (id s : string) : bool := String.prefix s id.

(** [id => deps.some(dep => id === dep || id.startsWith(`${dep}/`))] *)
Definition external (deps : list string) (id : string) : bool :=
  existsb (fun dep => String.eqb id dep || startsWith id (dep +:+ "/")) deps.

End Rollup.

(** * The bundle-size script (second part of the providers.ts source)

    [overwriteVersion] and [parseAnalysisOutput] read JSON files and walk
    the parsed values.  Embedded here are the two loops of the first and the
    whole of the second; the files it reads are a map from paths to
    contents, and parsing and printing JSON are the host's. *)

Module SizeAnalysis.

(** A value as [JSON.parse] builds it.  An object keeps its properties in
    order; a number is kept as the text it was read from, since the script
    computes with none. *)
#[warnings="-register-all"]
Inductive json :=
  | Json_null
  | Json_bool (b : bool)
  | Json_number (literal : string)
  | Json_string (s : string)
  | Json_array (items : list json)
  | Json_object (properties : list (string * json)).

Inductive thrown :=
  | ENOENT (path : string)
  | SyntaxError
  | TypeError.

Inductive Outcome (A : Type) :=
  | Returns (a : A)
  | Throws (e : thrown).
Arguments Returns {A} a.
Arguments Throws {A} e.

#[global] Instance Outcome_ret : MRet Outcome := fun A a => Returns a.
#[global] Instance Outcome_bind : MBind Outcome :=
  fun A B k m => match m with Returns a => k a | Throws e => Throws e end.

Record Host := {
  (** [JSON.parse(text)]; [None] is a thrown [SyntaxError] *)
  JSON_parse : string -> option json;
  (** [JSON.stringify(value, null, 2)] *)
  JSON_stringify : json -> string;
  (** the string a template literal puts for a value that is not a
      string; [None] is a [TypeError] thrown by the conversion *)
  ToString : json -> option string
}.

(** The own property [k] of an object. *)
Fixpoint assoc (k : string) (ps : list (string * json)) : option json :=
  match ps with
  | [] => None
  | (k', v) :: ps' => if String.eqb k' k then Some v else assoc k ps'
  end.

(** [o[k] = v] on an object: an existing property keeps its place, a new
    one goes last. *)
Fixpoint assoc_set (k : string) (v : json) (ps : list (string * json))
  : list (string * json) :=
  match ps with
  | [] => [(k, v)]
  | (k', v') :: ps' =>
      if String.eqb k' k then (k, v) :: ps' else (k', v') :: assoc_set k v ps'
  end.

(** [v.k] for the names the script reads ([dependencies], [name],
    [results], [size]): an object gives its own property, [null] throws,
    every other value gives [undefined] ([None]). *)
Definition property (v : json) (k : string) : Outcome (option json) :=
  match v with
  | Json_null => Throws TypeError
  | Json_object ps => Returns (assoc k ps)
  | _ => Returns None
  end.

(** The one-character strings of [s]. *)
Fixpoint characters (s : string) : list json :=
  match s with
  | EmptyString => []
  | String c rest => Json_string (String c EmptyString) :: characters rest
  end.

(** What [for (const x of v)] iterates over: the elements of an array, the
    characters of a string; anything else, [undefined] included, is not
    iterable. *)
Definition iterate (v : option json) : Outcome (list json) :=
  match v with
  | Some (Json_array items) => Returns items
  | Some (Json_string s) => Returns (characters s)
  | _ => Throws TypeError
  end.

(** The body of a [for ... of] loop run on each element in turn; the
    first throw ends the loop. *)
Fixpoint for_of {A B} (body : A -> Outcome B) (l : list A) : Outcome (list B) :=
  match l with
  | [] => Returns []
  | x :: l' => y ← body x; ys ← for_of body l'; mret (y :: ys)
  end.

(** [dependency.versionOrTag = version] in a module, which is strict code:
    on an object it sets the property; on an array it sets a property that
    is no element, which leaves the array's JSON as it was; on [null] and on
    a primitive it throws. *)
Definition set_versionOrTag (version : string) (dependency : json) : Outcome json :=
  match dependency with
  | Json_object ps =>
      Returns (Json_object (assoc_set "versionOrTag" (Json_string version) ps))
  | Json_array items => Returns (Json_array items)
  | _ => Throws TypeError
  end.

(** The inner loop of [overwriteVersion], lines 286-289, and the
    definition it leaves. *)
Definition overwrite_dependencies (version : string) (definition : json)
  : Outcome json :=
  dependencies ← property definition "dependencies";
  items ← iterate dependencies;
  items' ← for_of (set_versionOrTag version) items;
  mret (match definition, dependencies with
        | Json_object ps, Some (Json_array _) =>
            Json_object (assoc_set "dependencies" (Json_array items') ps)
        | _, _ => definition
        end).

(** The outer loop, lines 285-290, and the value it leaves. *)
Definition overwrite_definitions (version : string) (definitions : json)
  : Outcome json :=
  items ← iterate (Some definitions);
  items' ← for_of (overwrite_dependencies version) items;
  mret (match definitions with
        | Json_array _ => Json_array items'
        | _ => definitions
        end).

(** [fs.readFileSync(path, { encoding: 'utf-8' })] *)
Definition readFileSync (fs : gmap string string) (path : string) : Outcome string :=
  match fs !! path with
  | Some text => Returns text
  | None => Throws (ENOENT path)
  end.

(** [JSON.parse(text)] *)
Definition parse (h : Host) (text : string) : Outcome json :=
  match JSON_parse h text with
  | Some v => Returns v
  | None => Throws SyntaxError
  end.

(** One element of the array [parseAnalysisOutput] returns. *)
Record Row := { sdk : string; type : string; size : option json }.

(** [`${product} (${name})`] *)
Definition sdk_name (h : Host) (product : string) (name : option json)
  : Outcome string :=
  text ← match name with
         | None => Returns "undefined"
         | Some (Json_string s) => Returns s
         | Some v => match ToString h v with
                     | Some text => Returns text
                     | None => Throws TypeError
                     end
         end;
  mret (product +:+ " (" +:+ text +:+ ")").

(** [results[0]]: [undefined] and [null] throw; an array gives its first
    element, a string its first character, an object its property [0]. *)
Definition first (results : option json) : Outcome (option json) :=
  match results with
  | None | Some Json_null => Throws TypeError
  | Some (Json_array items) => Returns (head items)
  | Some (Json_string s) => Returns (head (characters s))
  | Some (Json_object ps) => Returns (assoc "0" ps)
  | Some _ => Returns None
  end.

(** The body of the loop of [parseAnalysisOutput], lines 300-303. *)
Definition analysis_row (h : Host) (product : string) (analysis : json)
  : Outcome Row :=
  name ← property analysis "name";
  sdk ← sdk_name h product name;
  results ← property analysis "results";
  result0 ← first results;
  size ← match result0 with
         | None => Throws TypeError
         | Some v => property v "size"
         end;
  mret {| sdk := sdk; type := "bundle"; size := size |}.

(** [parseAnalysisOutput(product, output)] *)
Definition parseAnalysisOutput (h : Host) (product output : string)
    (fs : gmap string string) : Outcome (list Row) :=
  text ← readFileSync fs output;
  analyses ← parse h text;
  items ← iterate (Some analyses);
  for_of (analysis_row h product) items.

(** *** Notions the properties are stated with *)

(** [dependency'] is [dependency] after [versionOrTag] was set to
    [version] on it. *)
Definition versioned (version : string) (dependency dependency' : json) : Prop :=
  match dependency, dependency' with
  | Json_object ps, Json_object ps' =>
      assoc "versionOrTag" ps' = Some (Json_string version) /\
      forall k, k <> "versionOrTag" -> assoc k ps' = assoc k ps
  | Json_array items, Json_array items' => items' = items
  | _, _ => False
  end.

(** [definition'] is [definition] after the inner loop: an object whose
    [dependencies] array holds the same dependencies, each one versioned,
    and whose other properties are untouched; or an object whose
    [dependencies] is the empty string, left as it was. *)
Definition rewritten (version : string) (definition definition' : json) : Prop :=
  exists ps,
    definition = Json_object ps /\
    ((exists dependencies dependencies' ps',
        assoc "dependencies" ps = Some (Json_array dependencies) /\
        definition' = Json_object ps' /\
        assoc "dependencies" ps' = Some (Json_array dependencies') /\
        Forall2 (versioned version) dependencies dependencies' /\
        forall k, k <> "dependencies" -> assoc k ps' = assoc k ps) \/
     (assoc "dependencies" ps = Some (Json_string "") /\ definition' = definition)).

(** *** Sample inputs *)

(** A bundle-definition file with one definition and one dependency. *)
Definition definitions_at (version : string) : json :=
  Json_array
    [Json_object
       [("name", Json_string "initializeApp");
        ("dependencies",
         Json_array
           [Json_object
              [("packageName", Json_string "firebase");
               ("versionOrTag", Json_string version);
               ("imports", Json_array [Json_string "initializeApp"])]])]].

(** An analysis file with one analysis, and one whose analysis has no
    results. *)
Definition analyses0 : json :=
  Json_array
    [Json_object
       [("name", Json_string "initializeApp");
        ("results",
         Json_array [Json_object [("bundler", Json_string "rollup");
                                  ("size", Json_number "12345")]])]].

Definition analyses_without_results : json :=
  Json_array
    [Json_object [("name", Json_string "initializeApp"); ("results", Json_array [])]].

(** A host that knows three texts. *)
Definition host0 : Host :=
  {| JSON_parse := fun text =>
       if String.eqb text "definitions at latest" then Some (definitions_at "latest")
       else if String.eqb text "analyses" then Some analyses0
       else if String.eqb text "analyses without results"
            then Some analyses_without_results
       else None;
     JSON_stringify := fun _ => "definitions at 9.1.3";
     ToString := fun _ => Some "[object Object]" |}.

Definition files0 : gmap string string :=
  {[ "/tmp/run/app.analysis.json" := "analyses";
     "/tmp/run/empty.analysis.json" := "analyses without results" ]}.

End SizeAnalysis.

(** * Properties *)

(** Unfolding the monad: after it a method body is a nest of [match]es on
    the world's answers. *)
#[local] Ltac run_M :=
  unfold mbind, M_bind, mret, M_ret, get_this, set_this, throw, ask, record,
    Date_now in *; cbn [this ticks calls] in *.

(** Rewriting with what is known of the state and of the world's answers,
    one fact after the other. *)
#[local] Tactic Notation "known" constr(H) := rewrite H; cbn [this ticks calls].
#[local] Tactic Notation "known" constr(H) "," constr(H1) := known H; known H1.
#[local] Tactic Notation "known" constr(H) "," constr(H1) "," constr(H2) :=
  known H; known H1; known H2.
#[local] Tactic Notation "known" constr(H) "," constr(H1) "," constr(H2) "," constr(H3) :=
  known H; known H1; known H2; known H3.

Lemma exchange_attempts_app l l' :
  exchange_attempts (l ++ l') = (exchange_attempts l + exchange_attempts l')%nat.
Proof. unfold exchange_attempts. by rewrite List.filter_app, length_app. Qed.

Module ReCaptchaV3Facts.
Import ReCaptchaV3Provider Samples.

(** *** [_setBackoff], branch by branch *)

Lemma hard_block_true status :
  hard_block status = true <-> status = Num 403 \/ status = Num 404.
Proof.
  unfold hard_block. destruct status as [z|]; simpl.
  - rewrite orb_true_iff, !Z.eqb_eq. split.
    + intros [->| ->]; auto.
    + intros [H|H]; injection H as ->; auto.
  - split; [discriminate | intros [H|H]; discriminate].
Qed.

Lemma _setBackoff_hard w r status :
  hard_block status = true ->
  _setBackoff status w r =
    let td := one_day_block (w_clock w (ticks r)) status in
    (Return td, mkRun (with_throttleData (Some td) (this r)) (S (ticks r)) (calls r)).
Proof.
  intros H. unfold _setBackoff. fold (hard_block status). rewrite H.
  unfold set_throttleData. run_M. reflexivity.
Qed.

Lemma _setBackoff_transient w r status :
  hard_block status = false ->
  _setBackoff status w r =
    let previous := previous_backoffCount (this r) in
    let td := escalated w (w_clock w (ticks r)) previous status in
    (Return td,
     mkRun (with_throttleData (Some td) (this r)) (S (ticks r))
           (calls r ++ [Ev_calculateBackoffMillis previous 1000 2])).
Proof.
  intros H. unfold _setBackoff. fold (hard_block status). rewrite H.
  unfold set_throttleData, calculateBackoffMillis. run_M. reflexivity.
Qed.

(** Whatever the status, [_setBackoff] returns the record it has just
    stored; nothing else of the provider changes and no exchange is made. *)
Lemma _setBackoff_returns_stored w r status :
  exists td r',
    _setBackoff status w r = (Return td, r') /\
    this r' = with_throttleData (Some td) (this r) /\
    httpStatus td = status /\
    backoffCount td =
      (if hard_block status then 1 else previous_backoffCount (this r) + 1) /\
    exchange_attempts (calls r') = exchange_attempts (calls r).
Proof.
  destruct (hard_block status) eqn:H.
  - rewrite (_setBackoff_hard _ _ _ H). simpl. eauto 10.
  - rewrite (_setBackoff_transient _ _ _ H). simpl.
    do 2 eexists. repeat split. cbn [calls].
    rewrite exchange_attempts_app. unfold exchange_attempts at 2. simpl. lia.
Qed.

(** *** [getToken], path by path *)

Lemma gtb_true a : a > 0 -> (a >? 0) = true.
Proof. intros. apply Z.gtb_lt. lia. Qed.

Lemma gtb_false a : a <= 0 -> (a >? 0) = false.
Proof. intros. rewrite Z.gtb_ltb. apply Z.ltb_ge. lia. Qed.

Lemma getToken_expired w r td :
  _throttleData (this r) = Some td ->
  w_clock w (ticks r) - allowRequestsAfter td > 0 ->
  getToken w r = getToken w (cleared r).
Proof.
  intros Htd Hnow. destruct r as [p k l]; simpl in *.
  unfold getToken, set_throttleData. run_M.
  known Htd, (gtb_true _ Hnow). reflexivity.
Qed.

Lemma getToken_blocked w r td :
  _throttleData (this r) = Some td ->
  w_clock w (ticks r) - allowRequestsAfter td <= 0 ->
  getToken w r =
    (Throw (THROTTLED_error td), mkRun (this r) (S (ticks r)) (calls r)).
Proof.
  intros Htd Hnow. destruct r as [p k l]; simpl in *.
  unfold getToken, set_throttleData. run_M.
  known Htd, (gtb_false _ Hnow). reflexivity.
Qed.

Lemma getToken_entered w r : admitted w r -> getToken w r = getToken w (entered r).
Proof.
  unfold admitted, entered. destruct (_throttleData (this r)) eqn:E; [|done].
  intros H. by eapply getToken_expired.
Qed.

Lemma entered_no_record r : _throttleData (this (entered r)) = None.
Proof. unfold entered. by destruct (_throttleData (this r)) eqn:E. Qed.

Lemma getToken_uninitialized w r :
  _throttleData (this r) = None ->
  ~ initialized (this r) ->
  getToken w r =
    (Throw (ERROR_FACTORY_create USE_BEFORE_ACTIVATION (AppNameParams "")), r).
Proof.
  intros Htd Hinit. destruct r as [p k l]; simpl in *.
  unfold getToken. run_M. known Htd.
  destruct (_app p) eqn:Ea; [destruct (_platformLoggerProvider p) eqn:Ep|]; try done.
  exfalso. apply Hinit. split; eauto.
Qed.

Section Initialized.
Variables (w : World) (r : Run t) (app : FirebaseApp) (plp : Provider).
Hypothesis Htd : _throttleData (this r) = None.
Hypothesis Happ : _app (this r) = Some app.
Hypothesis Hplp : _platformLoggerProvider (this r) = Some plp.

Lemma getToken_attestation_rejected reason :
  w_getReCAPTCHAToken w app = Rejected reason ->
  getToken w r =
    (Throw (ERROR_FACTORY_create RECAPTCHA_ERROR NoParams),
     logged [Ev_getReCAPTCHAToken app] r).
Proof using Htd Happ Hplp.
  intros Hre. destruct r as [p k l]; simpl in *.
  unfold getToken, getReCAPTCHAToken. run_M.
  known Htd, Happ, Hplp, Hre. reflexivity.
Qed.

Variable attestedClaimsToken : string.
Hypothesis Hattested : w_getReCAPTCHAToken w app = Resolved attestedClaimsToken.

Let request := getExchangeRecaptchaTokenRequest app attestedClaimsToken.
Let attempted := logged [Ev_getReCAPTCHAToken app; Ev_exchangeToken request plp] r.

Lemma getToken_exchanged result :
  w_exchangeToken w request plp = Resolved result ->
  getToken w r = (Return result, attempted).
Proof using Htd Happ Hplp Hattested.
  intros Hex. subst request attempted. destruct r as [p k l]; simpl in *.
  unfold getToken, getReCAPTCHAToken, exchangeToken, logged. run_M.
  known Htd, Happ, Hplp, Hattested. known Hex. by rewrite <- app_assoc.
Qed.

Lemma getToken_rethrows e :
  w_exchangeToken w request plp = Rejected e ->
  is_FETCH_STATUS_ERROR (code e) = false ->
  getToken w r = (Throw (Thrown e), attempted).
Proof using Htd Happ Hplp Hattested.
  intros Hex Hcode. subst request attempted. destruct r as [p k l]; simpl in *.
  unfold getToken, getReCAPTCHAToken, exchangeToken, logged. run_M.
  known Htd, Happ, Hplp, Hattested. known Hex, Hcode. by rewrite <- app_assoc.
Qed.

Lemma getToken_backs_off e td r' :
  w_exchangeToken w request plp = Rejected e ->
  is_FETCH_STATUS_ERROR (code e) = true ->
  _setBackoff (Number w (optional_httpStatus e)) w attempted = (Return td, r') ->
  getToken w r = (Throw (THROTTLED_error td), r').
Proof using Htd Happ Hplp Hattested.
  intros Hex Hcode Hset. subst request attempted. destruct r as [p k l]; simpl in *.
  unfold getToken, getReCAPTCHAToken, exchangeToken, logged in *. run_M.
  known Htd, Happ, Hplp, Hattested. known Hex, Hcode.
  rewrite <- app_assoc. simpl. by rewrite Hset.
Qed.

End Initialized.

Lemma getToken_exchange_attempts w r :
  _throttleData (this r) = None ->
  exchange_attempts (calls (getToken w r).2) =
    (exchange_attempts (calls r) + if exchange_reached w (this r) then 1 else 0)%nat.
Proof.
  intros Htd. unfold exchange_reached.
  destruct (_app (this r)) as [app|] eqn:Happ;
    [destruct (_platformLoggerProvider (this r)) as [plp|] eqn:Hplp|].
  - destruct (w_getReCAPTCHAToken w app) as [tok|reason] eqn:Hre.
    + destruct (w_exchangeToken w (getExchangeRecaptchaTokenRequest app tok) plp)
        as [result|e] eqn:Hex.
      * rewrite (getToken_exchanged w r app plp Htd Happ Hplp tok Hre result Hex).
        cbn [snd logged calls]. rewrite exchange_attempts_app. reflexivity.
      * destruct (is_FETCH_STATUS_ERROR (code e)) eqn:Hcode.
        -- destruct (_setBackoff_returns_stored w
                       (logged [Ev_getReCAPTCHAToken app;
                                Ev_exchangeToken
                                  (getExchangeRecaptchaTokenRequest app tok) plp] r)
                       (Number w (optional_httpStatus e)))
             as (td & r' & Hset & _ & _ & _ & Hcalls).
           rewrite (getToken_backs_off w r app plp Htd Happ Hplp tok Hre e td r' Hex Hcode Hset).
           cbn [snd]. rewrite Hcalls. cbn [logged calls].
           rewrite exchange_attempts_app. reflexivity.
        -- rewrite (getToken_rethrows w r app plp Htd Happ Hplp tok Hre e Hex Hcode).
           cbn [snd logged calls]. rewrite exchange_attempts_app. reflexivity.
    + rewrite (getToken_attestation_rejected w r app plp Htd Happ Hplp reason Hre).
      cbn [snd logged calls]. rewrite exchange_attempts_app.
      unfold exchange_attempts at 2. simpl. reflexivity.
  - rewrite getToken_uninitialized; [simpl; lia | done |].
    intros [_ [? H]]. congruence.
  - rewrite getToken_uninitialized; [simpl; lia | done |].
    intros [[? H] _]. congruence.
Qed.

(** *** C1 *)

(** C1, as stated, fails on the code in two places.  At
    [now = allowRequestsAfter] the test [Date.now() - allowRequestsAfter > 0]
    is false: the call on a provider throttled until 1000, made at 1000 with
    both collaborators ready to succeed, still throws the throttled error,
    keeps the record and makes no exchange attempt.  And past the window a
    call whose attestation is rejected clears the record but never reaches
    the exchange. *)
Lemma getToken_at_allowRequestsAfter_is_throttled :
  (w_clock (world 1000 (Resolved "attested") (Resolved token0)) 0%nat
     >= allowRequestsAfter until_1000 /\
   exec getToken (world 1000 (Resolved "attested") (Resolved token0))
        (throttled until_1000) =
     (Throw (THROTTLED_error until_1000), mkRun (throttled until_1000) 1%nat [])) /\
  (w_clock (world 1001 (Rejected JNull) (Resolved token0)) 0%nat
     >= allowRequestsAfter until_1000 /\
   exec getToken (world 1001 (Rejected JNull) (Resolved token0))
        (throttled until_1000) =
     (Throw (ERROR_FACTORY_create RECAPTCHA_ERROR NoParams),
      mkRun (with_throttleData None (throttled until_1000)) 1%nat
            [Ev_getReCAPTCHAToken app0]) /\
   exchange_attempts [Ev_getReCAPTCHAToken app0] = 0%nat).
Proof. repeat split; vm_compute; congruence. Qed.

(** C1 (amended): on a call made while a throttle record is present, if
    [now > allowRequestsAfter] the record is cleared and the call goes on
    exactly as a call on the provider without a record does, which makes one
    exchange attempt when the provider is initialised and the attestation
    resolves, and none otherwise; if [now <= allowRequestsAfter] the call
    throws the throttled error built from the stored [allowRequestsAfter]
    and [httpStatus], leaves the provider as it was, calls no collaborator,
    and any further call made inside the window throws the same error. *)
Theorem getToken_throttle_gate w r td :
  _throttleData (this r) = Some td ->
  (w_clock w (ticks r) > allowRequestsAfter td ->
     getToken w r = getToken w (cleared r) /\
     _throttleData (this (cleared r)) = None /\
     exchange_attempts (calls (getToken w r).2) =
       (exchange_attempts (calls r) + if exchange_reached w (this r) then 1 else 0)%nat) /\
  (w_clock w (ticks r) <= allowRequestsAfter td ->
     getToken w r =
       (Throw (THROTTLED_error td), mkRun (this r) (S (ticks r)) (calls r)) /\
     forall w', w_clock w' 0%nat <= allowRequestsAfter td ->
       exec getToken w' (this (getToken w r).2) =
         (Throw (THROTTLED_error td), mkRun (this r) 1%nat [])).
Proof.
  intros Htd. split; intros Hnow.
  - assert (Hgo : w_clock w (ticks r) - allowRequestsAfter td > 0) by lia.
    rewrite (getToken_expired w r td Htd Hgo). repeat split.
    rewrite getToken_exchange_attempts by reflexivity. reflexivity.
  - assert (Hstop : w_clock w (ticks r) - allowRequestsAfter td <= 0) by lia.
    rewrite (getToken_blocked w r td Htd Hstop). split; [reflexivity|].
    intros w' Hw'. unfold exec. cbn [snd this].
    apply (getToken_blocked w' (mkRun (this r) 0%nat []) td Htd).
    cbn [ticks]. lia.
Qed.

Lemma getToken_throttle_gate_witness :
  (getToken (world 1001 (Resolved "attested") (Resolved token0))
            (mkRun (throttled until_1000) 0%nat []) =
   getToken (world 1001 (Resolved "attested") (Resolved token0))
            (cleared (mkRun (throttled until_1000) 0%nat []))) /\
  (getToken (world 999 (Resolved "attested") (Resolved token0))
            (mkRun (throttled until_1000) 0%nat []) =
   (Throw (THROTTLED_error until_1000), mkRun (throttled until_1000) 1%nat [])).
Proof.
  split.
  - refine (proj1 (proj1 (getToken_throttle_gate
             (world 1001 (Resolved "attested") (Resolved token0))
             (mkRun (throttled until_1000) 0%nat []) until_1000 eq_refl) _)).
    simpl. lia.
  - refine (proj1 (proj2 (getToken_throttle_gate
             (world 999 (Resolved "attested") (Resolved token0))
             (mkRun (throttled until_1000) 0%nat []) until_1000 eq_refl) _)).
    simpl. lia.
Defined.

(** *** The attempt that follows the throttle check *)

Lemma getToken_attempt w r :
  _throttleData (this r) = None -> attempt w r (getToken w r).
Proof.
  intros Htd.
  destruct (_app (this r)) as [app|] eqn:Happ;
    [destruct (_platformLoggerProvider (this r)) as [plp|] eqn:Hplp|].
  - destruct (w_getReCAPTCHAToken w app) as [tok|reason] eqn:Hre.
    + destruct (w_exchangeToken w (getExchangeRecaptchaTokenRequest app tok) plp)
        as [result|e] eqn:Hex.
      * rewrite (getToken_exchanged w r app plp Htd Happ Hplp tok Hre result Hex).
        by eapply attempt_exchanged.
      * destruct (is_FETCH_STATUS_ERROR (code e)) eqn:Hcode.
        -- destruct (_setBackoff_returns_stored w
                       (logged [Ev_getReCAPTCHAToken app;
                                Ev_exchangeToken
                                  (getExchangeRecaptchaTokenRequest app tok) plp] r)
                       (Number w (optional_httpStatus e)))
             as (td & r' & Hset & _).
           rewrite (getToken_backs_off w r app plp Htd Happ Hplp tok Hre e td r' Hex Hcode Hset).
           by eapply attempt_backed_off.
        -- rewrite (getToken_rethrows w r app plp Htd Happ Hplp tok Hre e Hex Hcode).
           by eapply attempt_rethrown.
    + rewrite (getToken_attestation_rejected w r app plp Htd Happ Hplp reason Hre).
      by eapply attempt_attestation_rejected.
  - assert (Hno : ~ initialized (this r)) by (intros [_ [? H]]; congruence).
    rewrite getToken_uninitialized by done. by constructor.
  - assert (Hno : ~ initialized (this r)) by (intros [[? H] _]; congruence).
    rewrite getToken_uninitialized by done. by constructor.
Qed.

(** An attempt touches nothing of [this] but the throttle record, and
    stores a record only on the path that has made an exchange. *)
Lemma attempt_this w r out :
  _throttleData (this r) = None ->
  attempt w r out ->
  this out.2 = this r \/
  exists td,
    this out.2 = with_throttleData (Some td) (this r) /\
    initialized (this r) /\
    backoffCount td = 1 /\
    exchange_attempts (calls out.2) = (exchange_attempts (calls r) + 1)%nat.
Proof.
  intros Htd Hat. inversion Hat; subst; cbn [snd logged this]; auto.
  right.
  match goal with H : _setBackoff ?st w ?r1 = _ |- _ =>
    destruct (_setBackoff_returns_stored w r1 st)
      as (td' & r'' & Hset & Hthis & _ & Hcount & Hcalls);
    rewrite Hset in H; injection H as -> ->
  end.
  exists td. cbn [logged this calls] in *. repeat split; eauto.
  - rewrite Hcount. unfold previous_backoffCount. rewrite Htd.
    by destruct (hard_block _).
  - rewrite Hcalls, exchange_attempts_app. reflexivity.
Qed.

(** *** C3 *)

(** C3: a failure status of 403 or 404 makes [_setBackoff] store, and
    return, the record with [allowRequestsAfter = now + ONE_DAY],
    [backoffCount = 1] and [httpStatus] the failure's status, whatever
    record, if any, the provider held before. *)
Theorem _setBackoff_hard_block w r status :
  status = Num 403 \/ status = Num 404 ->
  let td := {| allowRequestsAfter := w_clock w (ticks r) + ONE_DAY;
               backoffCount := 1;
               httpStatus := status |} in
  _setBackoff status w r =
    (Return td, mkRun (with_throttleData (Some td) (this r)) (S (ticks r)) (calls r)) /\
  _throttleData (this (_setBackoff status w r).2) = Some td.
Proof.
  intros H%hard_block_true. cbn zeta.
  rewrite (_setBackoff_hard w r status H). split; reflexivity.
Qed.

Lemma _setBackoff_hard_block_witness :
  _throttleData
    (this (_setBackoff (Num 403) (world 5000 (Resolved "attested") (Resolved token0))
             (mkRun (throttled {| allowRequestsAfter := 1000; backoffCount := 7;
                                  httpStatus := Num 500 |}) 0%nat [])).2) =
  Some {| allowRequestsAfter := 5000 + ONE_DAY; backoffCount := 1;
          httpStatus := Num 403 |}.
Proof.
  exact (proj2 (_setBackoff_hard_block
                  (world 5000 (Resolved "attested") (Resolved token0))
                  (mkRun (throttled {| allowRequestsAfter := 1000; backoffCount := 7;
                                       httpStatus := Num 500 |}) 0%nat [])
                  (Num 403) (or_introl eq_refl))).
Defined.

(** *** C4 *)

(** C4: a failure status other than 403 and 404 makes [_setBackoff] call
    [calculateBackoffMillis(previous, 1000, 2)], where [previous] is the
    [backoffCount] of the record held at that moment (0 when there is
    none), and store the record with [backoffCount = previous + 1],
    [allowRequestsAfter = now +] the delay it got, and [httpStatus] the
    failure's status. *)
Theorem _setBackoff_exponential w r status :
  status <> Num 403 -> status <> Num 404 ->
  let previous := match _throttleData (this r) with
                  | Some td => backoffCount td
                  | None => 0
                  end in
  let td := {| allowRequestsAfter :=
                 w_clock w (ticks r) + w_calculateBackoffMillis w previous 1000 2;
               backoffCount := previous + 1;
               httpStatus := status |} in
  _setBackoff status w r =
    (Return td,
     mkRun (with_throttleData (Some td) (this r)) (S (ticks r))
           (calls r ++ [Ev_calculateBackoffMillis previous 1000 2])) /\
  _throttleData (this (_setBackoff status w r).2) = Some td.
Proof.
  intros H403 H404. cbn zeta.
  assert (H : hard_block status = false).
  { destruct (hard_block status) eqn:E; [|done].
    apply hard_block_true in E as [?|?]; done. }
  rewrite (_setBackoff_transient w r status H). split; reflexivity.
Qed.

Lemma _setBackoff_exponential_witness :
  _throttleData
    (this (_setBackoff (Num 500) (world 5000 (Resolved "attested") (Resolved token0))
             (mkRun (throttled {| allowRequestsAfter := 1000; backoffCount := 3;
                                  httpStatus := Num 503 |}) 0%nat [])).2) =
  Some {| allowRequestsAfter := 5000 + 8000; backoffCount := 3 + 1;
          httpStatus := Num 500 |}.
Proof.
  refine (proj2 (_setBackoff_exponential
                  (world 5000 (Resolved "attested") (Resolved token0))
                  (mkRun (throttled {| allowRequestsAfter := 1000; backoffCount := 3;
                                       httpStatus := Num 503 |}) 0%nat [])
                  (Num 500) _ _)); discriminate.
Defined.

(** *** C5 *)

(** C5: when the exchange collaborator rejects with [e] inside a call
    that got past the throttle check, then: if [e.code] is
    [FETCH_STATUS_ERROR], [_setBackoff] runs on
    [Number(e.customData?.httpStatus)] and the call throws the throttled
    error built from the record [_setBackoff] has stored; otherwise the call
    throws [e] itself, the provider is as the throttle check left it, and
    the log holds the one attestation and the one exchange call. *)
Theorem getToken_exchange_failure w r app plp tok e :
  admitted w r ->
  _app (this r) = Some app ->
  _platformLoggerProvider (this r) = Some plp ->
  w_getReCAPTCHAToken w app = Resolved tok ->
  w_exchangeToken w (getExchangeRecaptchaTokenRequest app tok) plp = Rejected e ->
  let attempted :=
    logged [Ev_getReCAPTCHAToken app;
            Ev_exchangeToken (getExchangeRecaptchaTokenRequest app tok) plp]
           (entered r) in
  (is_FETCH_STATUS_ERROR (code e) = true ->
     exists td r',
       _setBackoff (Number w (optional_httpStatus e)) w attempted = (Return td, r') /\
       getToken w r = (Throw (THROTTLED_error td), r') /\
       _throttleData (this r') = Some td /\
       httpStatus td = Number w (optional_httpStatus e) /\
       exchange_attempts (calls r') = (exchange_attempts (calls r) + 1)%nat) /\
  (is_FETCH_STATUS_ERROR (code e) = false ->
     getToken w r = (Throw (Thrown e), attempted) /\
     this attempted = this (entered r) /\
     (_throttleData (this r) = None -> this attempted = this r) /\
     exchange_attempts (calls attempted) = (exchange_attempts (calls r) + 1)%nat).
Proof.
  intros Hadm Happ Hplp Hre Hex attempted.
  rewrite (getToken_entered w r Hadm).
  assert (Htd : _throttleData (this (entered r)) = None) by apply entered_no_record.
  assert (Happ' : _app (this (entered r)) = Some app).
  { unfold entered. by destruct (_throttleData (this r)). }
  assert (Hplp' : _platformLoggerProvider (this (entered r)) = Some plp).
  { unfold entered. by destruct (_throttleData (this r)). }
  assert (Hcalls : calls (entered r) = calls r).
  { unfold entered. by destruct (_throttleData (this r)). }
  split; intros Hcode.
  - destruct (_setBackoff_returns_stored w attempted (Number w (optional_httpStatus e)))
      as (td & r' & Hset & Hthis & Hst & _ & Hn).
    exists td, r'. repeat split; try done.
    + by apply (getToken_backs_off w (entered r) app plp Htd Happ' Hplp' tok Hre e).
    + by rewrite Hthis.
    + rewrite Hn. subst attempted. cbn [logged calls].
      rewrite Hcalls, exchange_attempts_app. reflexivity.
  - repeat split.
    + by apply (getToken_rethrows w (entered r) app plp Htd Happ' Hplp' tok Hre e).
    + intros Hnone. subst attempted. unfold entered. by rewrite Hnone.
    + subst attempted. cbn [logged calls].
      rewrite Hcalls, exchange_attempts_app. reflexivity.
Qed.

Lemma getToken_exchange_failure_witness :
  getToken (world 5000 (Resolved "attested") (Rejected network_failure))
           (mkRun ready 0%nat []) =
  (Throw (Thrown network_failure),
   mkRun ready 0%nat
     [Ev_getReCAPTCHAToken app0;
      Ev_exchangeToken (getExchangeRecaptchaTokenRequest app0 "attested") plp0]).
Proof.
  exact (proj1 (proj2 (getToken_exchange_failure
                         (world 5000 (Resolved "attested") (Rejected network_failure))
                         (mkRun ready 0%nat []) app0 plp0 "attested" network_failure
                         I eq_refl eq_refl eq_refl eq_refl) eq_refl)).
Defined.

(** *** C9 *)

(** C9, as stated, fails on the code: a present value that is no number
    need not become [NaN].  With [httpStatus: null] the status handed to
    [_setBackoff] is [Number(null) = 0]; the exponential branch runs, and
    the record stored and the error thrown carry [httpStatus = 0]. *)
Lemma null_status_is_stored_as_zero :
  getToken (world 5000 (Resolved "attested") (Rejected (status_failure JNull)))
           (mkRun ready 0%nat []) =
  (Throw (ERROR_FACTORY_create THROTTLED (ThrottledParams (toLocaleString 6000) (Num 0))),
   mkRun (with_throttleData
            (Some {| allowRequestsAfter := 6000; backoffCount := 1;
                     httpStatus := Num 0 |})
            ready)
         1%nat
         [Ev_getReCAPTCHAToken app0;
          Ev_exchangeToken (getExchangeRecaptchaTokenRequest app0 "attested") plp0;
          Ev_calculateBackoffMillis 0 1000 2]) /\
  Num 0 <> NaN.
Proof. split; [vm_compute; reflexivity | discriminate]. Qed.

(** C9 (amended): when the rejected exchange carries the
    [FETCH_STATUS_ERROR] code, the status handed to [_setBackoff] is
    [Number(e.customData?.httpStatus)]; whenever that is neither 403 nor
    404 the exponential branch runs, and the record stored and the throttled
    error thrown carry it.  For a missing [httpStatus] it is [NaN], so the
    record and the error carry [httpStatus = NaN].  For a present value
    that is no number it is what [Number] makes of it: 0 for [null] and
    [false], 1 for [true]. *)
Theorem getToken_status_coerced w r app plp tok e :
  admitted w r ->
  _app (this r) = Some app ->
  _platformLoggerProvider (this r) = Some plp ->
  w_getReCAPTCHAToken w app = Resolved tok ->
  w_exchangeToken w (getExchangeRecaptchaTokenRequest app tok) plp = Rejected e ->
  is_FETCH_STATUS_ERROR (code e) = true ->
  let transient status :=
    let td := {| allowRequestsAfter :=
                   w_clock w (ticks (entered r)) + w_calculateBackoffMillis w 0 1000 2;
                 backoffCount := 0 + 1;
                 httpStatus := status |} in
    getToken w r =
      (Throw (ERROR_FACTORY_create THROTTLED
                (ThrottledParams (toLocaleString (allowRequestsAfter td)) status)),
       mkRun (with_throttleData (Some td) (this (entered r)))
             (S (ticks (entered r)))
             (calls r ++
              [Ev_getReCAPTCHAToken app;
               Ev_exchangeToken (getExchangeRecaptchaTokenRequest app tok) plp;
               Ev_calculateBackoffMillis 0 1000 2])) in
  (Number w (optional_httpStatus e) <> Num 403 ->
   Number w (optional_httpStatus e) <> Num 404 ->
   transient (Number w (optional_httpStatus e))) /\
  (status_missing e -> transient NaN) /\
  (optional_httpStatus e = JNull -> transient (Num 0)) /\
  (optional_httpStatus e = JBool false -> transient (Num 0)) /\
  (optional_httpStatus e = JBool true -> transient (Num 1)).
Proof.
  intros Hadm Happ Hplp Hre Hex Hcode transient.
  assert (Hgeneral : Number w (optional_httpStatus e) <> Num 403 ->
                     Number w (optional_httpStatus e) <> Num 404 ->
                     transient (Number w (optional_httpStatus e))).
  { intros H403 H404. subst transient. cbn beta zeta.
    assert (Hsoft : hard_block (Number w (optional_httpStatus e)) = false).
    { destruct (hard_block _) eqn:E; [|done].
      apply hard_block_true in E as [?|?]; done. }
    rewrite (getToken_entered w r Hadm).
    assert (Htd : _throttleData (this (entered r)) = None) by apply entered_no_record.
    assert (Happ' : _app (this (entered r)) = Some app).
    { unfold entered. by destruct (_throttleData (this r)). }
    assert (Hplp' : _platformLoggerProvider (this (entered r)) = Some plp).
    { unfold entered. by destruct (_throttleData (this r)). }
    assert (Hcalls : calls (entered r) = calls r).
    { unfold entered. by destruct (_throttleData (this r)). }
    apply (getToken_backs_off w (entered r) app plp Htd Happ' Hplp' tok Hre e);
      [done..|].
    rewrite (_setBackoff_transient _ _ _ Hsoft).
    cbn [logged this ticks calls]. unfold previous_backoffCount, escalated.
    rewrite Htd, Hcalls, <- app_assoc. reflexivity. }
  split; [exact Hgeneral|].
  assert (Hvalue : forall v status,
             optional_httpStatus e = v -> Number w v = status ->
             status <> Num 403 -> status <> Num 404 -> transient status).
  { intros v status Hv Hst H403 H404. rewrite <- Hst, <- Hv.
    apply Hgeneral; by rewrite Hv, Hst. }
  split; [|repeat split; intros Hv; by apply (Hvalue _ _ Hv)].
  intros Hmissing.
  assert (Hv : optional_httpStatus e = JUndefined).
  { unfold optional_httpStatus, get_property.
    destruct Hmissing as [->|(d & -> & [->| ->])]; reflexivity. }
  by apply (Hvalue _ _ Hv).
Qed.

Lemma getToken_status_coerced_witness :
  getToken (world 5000 (Resolved "attested") (Rejected statusless_failure))
           (mkRun ready 0%nat []) =
  (Throw (ERROR_FACTORY_create THROTTLED (ThrottledParams (toLocaleString 6000) NaN)),
   mkRun (with_throttleData
            (Some {| allowRequestsAfter := 6000; backoffCount := 1; httpStatus := NaN |})
            ready)
         1%nat
         [Ev_getReCAPTCHAToken app0;
          Ev_exchangeToken (getExchangeRecaptchaTokenRequest app0 "attested") plp0;
          Ev_calculateBackoffMillis 0 1000 2]).
Proof.
  exact (proj1 (proj2 (getToken_status_coerced
                         (world 5000 (Resolved "attested") (Rejected statusless_failure))
                         (mkRun ready 0%nat []) app0 plp0 "attested" statusless_failure
                         I eq_refl eq_refl eq_refl eq_refl eq_refl))
           (or_intror (ex_intro _ ∅ (conj eq_refl (or_introl eq_refl))))).
Defined.

Lemma getToken_this w r :
  (_throttleData (this r) = None \/ initialized (this r)) ->
  this (getToken w r).2 = this r \/
  this (getToken w r).2 = with_throttleData None (this r) \/
  exists td,
    this (getToken w r).2 = with_throttleData (Some td) (this r) /\
    initialized (this r) /\
    backoffCount td = 1 /\
    exchange_attempts (calls (getToken w r).2) = (exchange_attempts (calls r) + 1)%nat.
Proof.
  intros Hinv.
  destruct (_throttleData (this r)) as [td0|] eqn:Htd.
  - destruct (Z_le_gt_dec (w_clock w (ticks r) - allowRequestsAfter td0) 0) as [Hle|Hgt].
    + rewrite (getToken_blocked w r td0 Htd Hle). by left.
    + rewrite (getToken_expired w r td0 Htd Hgt).
      destruct (attempt_this w (cleared r) _ eq_refl (getToken_attempt w (cleared r) eq_refl))
        as [H|(td & H & Hi & Hc & Hn)].
      * right; left. by rewrite H.
      * right; right. exists td. by rewrite H.
  - destruct (attempt_this w r _ Htd (getToken_attempt w r Htd))
      as [H|(td & H & Hi & Hc & Hn)].
    + by left.
    + right; right. by exists td.
Qed.

Lemma initialize_after w p app :
  after (initialize app) w p =
    {| _app := Some app;
       _platformLoggerProvider := Some (_getProvider app "platform-logger");
       _throttleData := _throttleData p;
       _siteKey := _siteKey p |}.
Proof. reflexivity. Qed.

(** A stored record means an initialised provider, and its count is 1. *)
Lemma reachable_invariant p :
  reachable p ->
  forall td, _throttleData p = Some td -> initialized p /\ backoffCount td = 1.
Proof.
  induction 1 as [siteKey | p w app Hp IH | p w Hp IH]; intros td Htd.
  - discriminate.
  - rewrite initialize_after in *. cbn in Htd. split.
    + split; eauto.
    + by apply IH.
  - unfold after, exec in *.
    assert (Hinv : _throttleData (this (mkRun p 0%nat [])) = None \/
                   initialized (this (mkRun p 0%nat []))).
    { cbn [this]. destruct (_throttleData p) as [td0|] eqn:E; [right|by left].
      by apply (IH td0). }
    destruct (getToken_this w (mkRun p 0%nat []) Hinv)
      as [H|[H|(td' & H & Hi & Hc & _)]]; rewrite H in Htd |- *; cbn [this] in *.
    + by apply IH.
    + discriminate.
    + cbn in Htd. injection Htd as <-. done.
Qed.

(** *** C8 *)

(** C8: in every state a provider reaches through [initialize] and
    [getToken] calls, a throttle record is present only on an initialised
    provider; a call that stores a record has made an exchange attempt; and
    [getToken] on a provider that is not initialised throws the activation
    error, with no collaborator called and nothing changed. *)
Theorem throttled_only_when_initialized p :
  reachable p ->
  (is_Some (_throttleData p) -> initialized p) /\
  (forall w td,
     _throttleData (after getToken w p) = Some td ->
     _throttleData p <> Some td ->
     exchange_attempts (calls (exec getToken w p).2) = 1%nat) /\
  (~ initialized p ->
   forall w,
     exec getToken w p =
       (Throw (ERROR_FACTORY_create USE_BEFORE_ACTIVATION (AppNameParams "")),
        mkRun p 0%nat [])).
Proof.
  intros Hp.
  assert (Hinv : is_Some (_throttleData p) -> initialized p).
  { intros [td Htd]. by apply (reachable_invariant p Hp td). }
  split; [done|]. split.
  - intros w td Hafter Hbefore. unfold after, exec in *.
    assert (Hor : _throttleData (this (mkRun p 0%nat [])) = None \/
                  initialized (this (mkRun p 0%nat []))).
    { cbn [this]. destruct (_throttleData p) eqn:E; [right; apply Hinv; eauto|by left]. }
    destruct (getToken_this w (mkRun p 0%nat []) Hor)
      as [H|[H|(td' & H & _ & _ & Hn)]]; rewrite H in Hafter; cbn [this] in *.
    + done.
    + discriminate.
    + by rewrite Hn.
  - intros Hno w. apply getToken_uninitialized; cbn [this]; [|done].
    destruct (_throttleData p) eqn:E; [|done].
    exfalso. apply Hno, Hinv. eauto.
Qed.

Lemma throttled_only_when_initialized_witness :
  exec getToken (world 5000 (Resolved "attested") (Resolved token0)) (new "site-key") =
    (Throw (ERROR_FACTORY_create USE_BEFORE_ACTIVATION (AppNameParams "")),
     mkRun (new "site-key") 0%nat []).
Proof.
  refine (proj2 (proj2 (throttled_only_when_initialized (new "site-key")
                          (reachable_new "site-key"))) _ _).
  intros [[? H] _]. discriminate H.
Defined.

(** *** C6 *)

(** C6 fails on the code: the second of two consecutive transient
    failures leaves [backoffCount = 1] again, not 2, and asks
    [calculateBackoffMillis] for attempt 0 again.  The second call can reach
    the exchange only after its throttle check has set the record to
    [null], so line 136 reads no previous count. *)
Theorem backoffCount_does_not_escalate :
  _throttleData (after getToken first_failure ready) =
    Some {| allowRequestsAfter := 1000; backoffCount := 1; httpStatus := Num 500 |} /\
  exec getToken second_failure (after getToken first_failure ready) =
    (Throw (ERROR_FACTORY_create THROTTLED (ThrottledParams (toLocaleString 6000) (Num 500))),
     mkRun (with_throttleData
              (Some {| allowRequestsAfter := 6000; backoffCount := 1;
                       httpStatus := Num 500 |}) ready)
           2%nat
           [Ev_getReCAPTCHAToken app0;
            Ev_exchangeToken (getExchangeRecaptchaTokenRequest app0 "attested") plp0;
            Ev_calculateBackoffMillis 0 1000 2]).
Proof. split; vm_compute; reflexivity. Qed.

(** The same in general: no sequence of calls ever stores a count other
    than 1. *)
Lemma reachable_backoffCount p td :
  reachable p -> _throttleData p = Some td -> backoffCount td = 1.
Proof. intros Hp Htd. by apply (reachable_invariant p Hp td). Qed.

End ReCaptchaV3Facts.

(** ** CustomProvider.getToken *)

Module CustomFacts.
Import CustomProvider Samples.

(** The three ways the conditional of lines 198-203 goes. *)
Lemma normalize_trusted w r t :
  0 < t -> t < w_clock w (ticks r) ->
  normalize (Some (Num t)) w r =
    (Return (Num (t * 1000)), mkRun (this r) (S (ticks r)) (calls r)).
Proof.
  intros Hpos Hlt. unfold normalize, number_gt, number_lt. run_M.
  rewrite (proj2 (Z.ltb_lt _ _) Hlt), (proj2 (Z.ltb_lt _ _) Hpos). reflexivity.
Qed.

Lemma normalize_untrusted w r n :
  ~ (exists t, n = Num t /\ 0 < t /\ t < w_clock w (ticks r)) ->
  normalize (Some n) w r =
    (Return (Num (w_clock w (S (ticks r)))),
     mkRun (this r) (S (S (ticks r))) (calls r)).
Proof.
  intros Hno. unfold normalize, number_gt, number_lt. run_M.
  destruct n as [t|]; [|reflexivity].
  destruct (t <? w_clock w (ticks r)) eqn:Hlt; [|reflexivity].
  destruct (0 <? t) eqn:Hpos; [|reflexivity].
  exfalso. apply Hno. exists t.
  apply Z.ltb_lt in Hlt, Hpos. auto.
Qed.

Lemma normalize_null w r :
  normalize None w r =
    (Return (Num (w_clock w (ticks r))), mkRun (this r) (S (ticks r)) (calls r)).
Proof. reflexivity. Qed.

Lemma classic_trusted w (r : Run t) n :
  (exists t, n = Num t /\ 0 < t /\ t < w_clock w (ticks r)) \/
  ~ (exists t, n = Num t /\ 0 < t /\ t < w_clock w (ticks r)).
Proof.
  destruct n as [t|]; [|right; intros (t & H & _); discriminate].
  destruct (Z_lt_dec 0 t); [destruct (Z_lt_dec t (w_clock w (ticks r)))|].
  - left. eauto.
  - right. intros (t' & [= <-] & ? & ?). lia.
  - right. intros (t' & [= <-] & ? & ?). lia.
Qed.

(** [normalize] always completes, with an integer. *)
Lemma normalize_returns w r iat :
  exists ms r', normalize iat w r = (Return (Num ms), r') /\ this r' = this r.
Proof.
  destruct iat as [n|]; [|rewrite normalize_null; eauto].
  destruct (classic_trusted w r n) as [(t & -> & H0 & H1)|Hno].
  - rewrite normalize_trusted by done. eauto.
  - rewrite normalize_untrusted by done. eauto.
Qed.

Lemma custom_getToken_uninitialized w r :
  _app (this r) = None ->
  getToken w r =
    (Throw (ERROR_FACTORY_create USE_BEFORE_ACTIVATION (AppNameParams "")), r).
Proof.
  intros Happ. destruct r as [p k l]; simpl in *.
  unfold getToken. run_M. known Happ. reflexivity.
Qed.

Lemma getToken_callback_rejected w r app e :
  _app (this r) = Some app ->
  w_call w (opt_getToken (_customProviderOptions (this r))) = Rejected e ->
  getToken w r =
    (Throw e, logged [Ev_call (opt_getToken (_customProviderOptions (this r)))] r).
Proof.
  intros Happ Hcall. destruct r as [p k l]; simpl in *.
  unfold getToken, call_getToken, logged. run_M. known Happ, Hcall. reflexivity.
Qed.

Lemma getToken_normalized w r app customToken ms r' :
  _app (this r) = Some app ->
  w_call w (opt_getToken (_customProviderOptions (this r))) = Resolved customToken ->
  normalize (w_issuedAtTime w (get_property customToken "token")) w
    (logged [Ev_call (opt_getToken (_customProviderOptions (this r)))] r)
    = (Return ms, r') ->
  getToken w r =
    (Return (<["issuedAtTimeMillis" := JNumber ms]> customToken), r').
Proof.
  intros Happ Hcall Hnorm. destruct r as [p k l]; simpl in *.
  unfold getToken, call_getToken, issuedAtTime, logged in *. run_M.
  known Happ, Hcall. by rewrite Hnorm.
Qed.

(** *** The conditional of [getToken], in the units the code compares in *)

(** With [t] the number [issuedAtTime] extracts (seconds) and [now] the
    [Date.now()] reading the test takes (milliseconds), compared as the
    two plain numbers they are: [getToken] sets [issuedAtTimeMillis] to
    [t * 1000] when [0 < t] and [t < now]; to the clock when [t] is absent;
    and otherwise to the clock as read again after the failed test. *)
Theorem getToken_issuedAtTimeMillis w r app customToken :
  _app (this r) = Some app ->
  w_call w (opt_getToken (_customProviderOptions (this r))) = Resolved customToken ->
  let extracted := w_issuedAtTime w (get_property customToken "token") in
  let now := w_clock w (ticks r) in
  exists ms r',
    getToken w r =
      (Return (<["issuedAtTimeMillis" := JNumber (Num ms)]> customToken), r') /\
    (forall t, extracted = Some (Num t) -> 0 < t -> t < now -> ms = t * 1000) /\
    (extracted = None -> ms = now) /\
    (forall n, extracted = Some n ->
       ~ (exists t, n = Num t /\ 0 < t /\ t < now) ->
       ms = w_clock w (S (ticks r))).
Proof.
  intros Happ Hcall extracted now.
  set (r1 := logged [Ev_call (opt_getToken (_customProviderOptions (this r)))] r).
  destruct extracted as [n|] eqn:Hext.
  - destruct (classic_trusted w r1 n) as [(t & -> & H0 & H1)|Hno].
    + exists (t * 1000), (mkRun (this r1) (S (ticks r1)) (calls r1)).
      split; [|repeat split].
      * apply (getToken_normalized w r app); try done.
        fold r1. subst extracted. rewrite Hext. by apply normalize_trusted.
      * intros t' [= <-]. done.
      * done.
      * intros n [= <-] Hno. exfalso. apply Hno. exists t.
        repeat split; [exact H0 | exact H1].
    + exists (w_clock w (S (ticks r1))), (mkRun (this r1) (S (S (ticks r1))) (calls r1)).
      split; [|repeat split].
      * apply (getToken_normalized w r app); try done.
        fold r1. subst extracted. rewrite Hext. by apply normalize_untrusted.
      * intros t [= ->] H0 H1. exfalso. apply Hno. exists t.
        repeat split; [exact H0 | exact H1].
      * done.
  - exists now, (mkRun (this r1) (S (ticks r1)) (calls r1)).
    split; [|repeat split]; try done.
    apply (getToken_normalized w r app); try done.
    fold r1. subst extracted. rewrite Hext. apply normalize_null.
Qed.

(** *** C2 *)

(** C2 fails on the code: the test of line 200 compares the timestamp,
    which is in seconds, with [Date.now()], which is in milliseconds.  A
    token issued at second 1700000200, presented when the clock stands at
    1700000100000 ms (second 1700000100, so 100 s before the token's own
    timestamp), passes [t < Date.now()] and gets [issuedAtTimeMillis =
    1700000200000], a time after the current one, where the current time
    was to be substituted. *)
Theorem future_timestamp_is_trusted :
  exec getToken (custom_world 1700000100000 (Some (Num 1700000200))) custom_ready =
    (Return (<["issuedAtTimeMillis" := JNumber (Num 1700000200000)]> custom_token),
     mkRun custom_ready 1%nat [Ev_call callback0]) /\
  1700000200000 > w_clock (custom_world 1700000100000 (Some (Num 1700000200))) 0%nat /\
  1700000200 < w_clock (custom_world 1700000100000 (Some (Num 1700000200))) 0%nat.
Proof.
  split; [|split; reflexivity].
  unfold exec.
  apply (getToken_normalized
           (custom_world 1700000100000 (Some (Num 1700000200)))
           (mkRun custom_ready 0%nat []) app0 custom_token); [reflexivity..|].
  apply normalize_trusted; simpl; lia.
Qed.

(** *** C10 *)

(** C10: the object [getToken] returns has, under every name other than
    [issuedAtTimeMillis], exactly what the callback's token has there (the
    [token] string among them), and under [issuedAtTimeMillis] the number
    the conditional produced. *)
Theorem getToken_keeps_token_fields w r app customToken :
  _app (this r) = Some app ->
  w_call w (opt_getToken (_customProviderOptions (this r))) = Resolved customToken ->
  exists (result : gmap string jsval) ms r1 r',
    getToken w r = (Return result, r') /\
    normalize (w_issuedAtTime w (get_property customToken "token")) w r1
      = (Return ms, r') /\
    result !! "issuedAtTimeMillis" = Some (JNumber ms) /\
    (forall k : string, k <> "issuedAtTimeMillis" -> result !! k = customToken !! k) /\
    result !! "token" = customToken !! "token".
Proof.
  intros Happ Hcall.
  set (r1 := logged [Ev_call (opt_getToken (_customProviderOptions (this r)))] r).
  destruct (normalize_returns w r1 (w_issuedAtTime w (get_property customToken "token")))
    as (ms & r' & Hnorm & _).
  exists (<["issuedAtTimeMillis" := JNumber (Num ms)]> customToken), (Num ms), r1, r'.
  split; [by apply (getToken_normalized w r app)|].
  split; [done|]. split; [apply lookup_insert_eq|].
  split; [intros k Hk; by apply lookup_insert_ne|].
  by apply lookup_insert_ne.
Qed.

Lemma getToken_issuedAtTimeMillis_witness :
  exists ms r',
    getToken (custom_world 1700000100000 (Some (Num 1700000000)))
             (mkRun custom_ready 0%nat []) =
      (Return (<["issuedAtTimeMillis" := JNumber (Num ms)]> custom_token), r') /\
    ms = 1700000000 * 1000.
Proof.
  destruct (getToken_issuedAtTimeMillis
              (custom_world 1700000100000 (Some (Num 1700000000)))
              (mkRun custom_ready 0%nat []) app0 custom_token
              eq_refl eq_refl) as (ms & r' & Heq & Htrusted & _).
  exists ms, r'. split; [exact Heq|].
  apply (Htrusted 1700000000); [reflexivity | lia | simpl; lia].
Defined.

Lemma getToken_keeps_token_fields_witness :
  exists (result : gmap string jsval) r',
    getToken (custom_world 1700000100000 None) (mkRun custom_ready 0%nat []) =
      (Return result, r') /\
    result !! "token" = Some (JString "header.payload.signature") /\
    result !! "expireTimeMillis" = Some (JNumber (Num 1700003600000)).
Proof.
  destruct (getToken_keeps_token_fields
              (custom_world 1700000100000 None)
              (mkRun custom_ready 0%nat []) app0 custom_token
              eq_refl eq_refl) as (result & ms & r1 & r' & Heq & _ & _ & Hother & Htoken).
  exists result, r'. split; [exact Heq|]. split.
  - rewrite Htoken. reflexivity.
  - rewrite Hother by discriminate. reflexivity.
Defined.

End CustomFacts.

(** ** isEqual *)

Lemma string_eqb_true (a b : string) : String.eqb a b = true <-> a = b.
Proof. apply String.eqb_eq. Qed.

(** Two function objects, each its own closure, written with the same
    text: [toString()] cannot tell them apart. *)
Example isEqual_same_text_other_closure :
  CustomProvider_isEqual
    (CustomProvider.new {| opt_getToken := {| toString := "() => make()"; fn_ref := 1 |} |})
    (InstanceOfCustomProvider
       (CustomProvider.new
          {| opt_getToken := {| toString := "() => make()"; fn_ref := 2 |} |}))
  = true.
Proof. reflexivity. Qed.

(** C7: [isEqual] is reflexive and symmetric on providers; two
    [ReCaptchaV3Provider]s are equal exactly when their site keys are the
    same string; two [CustomProvider]s are equal exactly when their
    callbacks have the same [toString()] text, which holds in particular
    when the same function was supplied to both; a provider is never equal
    to a provider of the other class nor to a value that is no provider. *)
Theorem isEqual_properties :
  (forall a, isEqual a (as_unknown a) = true) /\
  (forall a b, isEqual a (as_unknown b) = isEqual b (as_unknown a)) /\
  (forall p q,
     ReCaptchaV3Provider_isEqual p (InstanceOfReCaptchaV3Provider q) = true <->
     ReCaptchaV3Provider._siteKey p = ReCaptchaV3Provider._siteKey q) /\
  (forall p q,
     CustomProvider_isEqual p (InstanceOfCustomProvider q) = true <->
     toString (opt_getToken (CustomProvider._customProviderOptions p)) =
     toString (opt_getToken (CustomProvider._customProviderOptions q))) /\
  (forall p q,
     opt_getToken (CustomProvider._customProviderOptions p) =
     opt_getToken (CustomProvider._customProviderOptions q) ->
     CustomProvider_isEqual p (InstanceOfCustomProvider q) = true) /\
  (forall p q,
     ReCaptchaV3Provider_isEqual p (InstanceOfCustomProvider q) = false /\
     CustomProvider_isEqual q (InstanceOfReCaptchaV3Provider p) = false) /\
  (forall a v, isEqual a (NotAProvider v) = false).
Proof.
  repeat split.
  - intros [p|p]; simpl; apply String.eqb_refl.
  - intros [p|p] [q|q]; simpl; try reflexivity; apply String.eqb_sym.
  - apply string_eqb_true.
  - apply string_eqb_true.
  - apply string_eqb_true.
  - apply string_eqb_true.
  - intros p q H. simpl. rewrite H. apply String.eqb_refl.
  - intros [p|p] v; reflexivity.
Qed.

Lemma isEqual_properties_witness :
  CustomProvider_isEqual Samples.custom_ready
    (InstanceOfCustomProvider
       (CustomProvider.new {| opt_getToken := Samples.callback0 |})) = true.
Proof.
  exact (proj1 (proj2 (proj2 (proj2 (proj2 isEqual_properties))))
           Samples.custom_ready
           (CustomProvider.new {| opt_getToken := Samples.callback0 |}) eq_refl).
Defined.

(** * Further properties of the providers *)

Module ReCaptchaV3More.
Import ReCaptchaV3Provider ReCaptchaV3Facts Samples.

(** Every call either stops at the throttle check or is an attempt from
    the state the check leaves. *)
Lemma getToken_stops_or_attempts w r :
  (exists td,
     _throttleData (this r) = Some td /\
     w_clock w (ticks r) <= allowRequestsAfter td /\
     getToken w r =
       (Throw (THROTTLED_error td), mkRun (this r) (S (ticks r)) (calls r))) \/
  (admitted w r /\ attempt w (entered r) (getToken w r)).
Proof.
  destruct (_throttleData (this r)) as [td|] eqn:Htd.
  - destruct (Z_le_gt_dec (w_clock w (ticks r) - allowRequestsAfter td) 0) as [Hle|Hgt].
    + left. exists td. split; [done|]. split; [lia|].
      by apply getToken_blocked.
    + right. assert (Hadm : admitted w r) by (unfold admitted; by rewrite Htd).
      split; [done|]. rewrite (getToken_entered w r Hadm).
      apply getToken_attempt, entered_no_record.
  - right. assert (Hadm : admitted w r) by (unfold admitted; by rewrite Htd).
    split; [done|]. rewrite (getToken_entered w r Hadm).
    apply getToken_attempt, entered_no_record.
Qed.

Lemma entered_frame r :
  _app (this (entered r)) = _app (this r) /\
  _platformLoggerProvider (this (entered r)) = _platformLoggerProvider (this r) /\
  _siteKey (this (entered r)) = _siteKey (this r) /\
  calls (entered r) = calls r.
Proof. unfold entered. by destruct (_throttleData (this r)). Qed.

(** X1: a [getToken] call that no other call on the provider overlaps
    (it runs here as one step, nothing else touching the provider between
    its awaits) returns a token only when the exchange resolved with exactly
    that token, on an initialised provider whose attestation resolved; the
    provider then holds no throttle record, and the call made one
    attestation call followed by one exchange call. *)
Theorem getToken_returns_only_the_exchanged_token w r result :
  (getToken w r).1 = Return result ->
  exists app plp tok,
    _app (this r) = Some app /\
    _platformLoggerProvider (this r) = Some plp /\
    w_getReCAPTCHAToken w app = Resolved tok /\
    w_exchangeToken w (getExchangeRecaptchaTokenRequest app tok) plp
      = Resolved result /\
    _throttleData (this (getToken w r).2) = None /\
    calls (getToken w r).2 =
      calls r ++ [Ev_getReCAPTCHAToken app;
                  Ev_exchangeToken (getExchangeRecaptchaTokenRequest app tok) plp].
Proof.
  intros Hret.
  destruct (getToken_stops_or_attempts w r) as [(td & _ & _ & Heq)|[Hadm Hat]].
  - rewrite Heq in Hret. discriminate.
  - destruct (entered_frame r) as (Ea & Ep & _ & Ec).
    inversion Hat as [Hno Hout | app plp reason Ha Hp Hre Hout
                      | app plp tok res Ha Hp Hre Hex Hout
                      | app plp tok e Ha Hp Hre Hex Hcode Hout
                      | app plp tok e td r' Ha Hp Hre Hex Hcode Hset Hout];
      rewrite <- Hout in Hret; cbn [fst] in Hret; try discriminate.
    injection Hret as ->.
    exists app, plp, tok. cbn [snd logged this calls].
    rewrite <- Ea, <- Ep, <- Ec. repeat split; try done.
    apply entered_no_record.
Qed.

Lemma getToken_returns_only_the_exchanged_token_witness :
  exists app plp tok,
    _app ready = Some app /\
    _platformLoggerProvider ready = Some plp /\
    w_getReCAPTCHAToken (world 5000 (Resolved "attested") (Resolved token0)) app
      = Resolved tok /\
    w_exchangeToken (world 5000 (Resolved "attested") (Resolved token0))
      (getExchangeRecaptchaTokenRequest app tok) plp = Resolved token0 /\
    _throttleData
      (this (getToken (world 5000 (Resolved "attested") (Resolved token0))
               (mkRun ready 0%nat [])).2) = None /\
    calls (getToken (world 5000 (Resolved "attested") (Resolved token0))
             (mkRun ready 0%nat [])).2 =
      [] ++ [Ev_getReCAPTCHAToken app;
             Ev_exchangeToken (getExchangeRecaptchaTokenRequest app tok) plp].
Proof.
  exact (getToken_returns_only_the_exchanged_token
           (world 5000 (Resolved "attested") (Resolved token0))
           (mkRun ready 0%nat []) token0 eq_refl).
Defined.

(** X2: whatever [getToken] throws is one of four things: the throttled
    error, built from the record the provider holds afterwards; the
    activation error, on a provider that is not initialised; the reCAPTCHA
    error; or the very error the exchange rejected with, and then its code
    is not [FETCH_STATUS_ERROR].  A status failure of the exchange never
    reaches the caller as it is. *)
Theorem getToken_throws_only w r x :
  (getToken w r).1 = Throw x ->
  (exists td,
     x = THROTTLED_error td /\ _throttleData (this (getToken w r).2) = Some td) \/
  (x = ERROR_FACTORY_create USE_BEFORE_ACTIVATION (AppNameParams "") /\
   ~ initialized (this r)) \/
  (x = ERROR_FACTORY_create RECAPTCHA_ERROR NoParams /\
   exists app reason,
     _app (this r) = Some app /\ w_getReCAPTCHAToken w app = Rejected reason) \/
  (exists app plp tok e,
     x = Thrown e /\
     is_FETCH_STATUS_ERROR (code e) = false /\
     _app (this r) = Some app /\
     _platformLoggerProvider (this r) = Some plp /\
     w_exchangeToken w (getExchangeRecaptchaTokenRequest app tok) plp = Rejected e).
Proof.
  intros Hthrow.
  destruct (getToken_stops_or_attempts w r) as [(td & Htd & _ & Heq)|[Hadm Hat]].
  - rewrite Heq in Hthrow |- *. injection Hthrow as <-. left. by exists td.
  - destruct (entered_frame r) as (Ea & Ep & _ & Ec).
    inversion Hat as [Hno Hout | app plp reason Ha Hp Hre Hout
                      | app plp tok res Ha Hp Hre Hex Hout
                      | app plp tok e Ha Hp Hre Hex Hcode Hout
                      | app plp tok e td r' Ha Hp Hre Hex Hcode Hset Hout];
      rewrite <- Hout in Hthrow; cbn [fst snd] in *; try discriminate;
      injection Hthrow as <-.
    + right; left. split; [done|]. unfold initialized in *. by rewrite <- Ea, <- Ep.
    + right; right; left. split; [done|]. exists app, reason. by rewrite <- Ea.
    + right; right; right. exists app, plp, tok, e. by rewrite <- Ea, <- Ep.
    + left. exists td. split; [done|].
      destruct (_setBackoff_returns_stored w
                  (logged [Ev_getReCAPTCHAToken app;
                           Ev_exchangeToken
                             (getExchangeRecaptchaTokenRequest app tok) plp] (entered r))
                  (Number w (optional_httpStatus e)))
        as (td' & r'' & Hset' & Hthis & _).
      rewrite Hset in Hset'. injection Hset' as <- <-. by rewrite Hthis.
Qed.

Lemma getToken_throws_only_witness :
  exists app plp tok e,
    Thrown network_failure = Thrown e /\
    is_FETCH_STATUS_ERROR (code e) = false /\
    _app ready = Some app /\
    _platformLoggerProvider ready = Some plp /\
    w_exchangeToken (world 5000 (Resolved "attested") (Rejected network_failure))
      (getExchangeRecaptchaTokenRequest app tok) plp = Rejected e.
Proof.
  destruct (getToken_throws_only
              (world 5000 (Resolved "attested") (Rejected network_failure))
              (mkRun ready 0%nat []) (Thrown network_failure) eq_refl)
    as [(td & H & _)|[(H & _)|[(H & _)|H]]]; try discriminate H.
  exact H.
Defined.

(** X3: for a [getToken] call that no other call on the provider
    overlaps (it runs here as one step), the throttle record the call leaves
    behind is the one its throttled error was built from: if a record is
    present after the call, the call threw the throttled error carrying
    that record's [allowRequestsAfter] and [httpStatus].  So such a call,
    when it returns a token or fails in any other way, leaves no record. *)
Theorem record_left_was_thrown w r td :
  _throttleData (this (getToken w r).2) = Some td ->
  (getToken w r).1 = Throw (THROTTLED_error td).
Proof.
  intros Hleft.
  destruct (getToken_stops_or_attempts w r) as [(td0 & Htd & _ & Heq)|[Hadm Hat]].
  - rewrite Heq in Hleft |- *. cbn [snd fst this] in *. congruence.
  - pose proof (entered_no_record r) as Hnone.
    inversion Hat as [Hno Hout | app plp reason Ha Hp Hre Hout
                      | app plp tok res Ha Hp Hre Hex Hout
                      | app plp tok e Ha Hp Hre Hex Hcode Hout
                      | app plp tok e td' r' Ha Hp Hre Hex Hcode Hset Hout];
      rewrite <- Hout in Hleft; cbn [fst snd logged this] in *;
      try congruence.
    destruct (_setBackoff_returns_stored w
                (logged [Ev_getReCAPTCHAToken app;
                         Ev_exchangeToken
                           (getExchangeRecaptchaTokenRequest app tok) plp] (entered r))
                (Number w (optional_httpStatus e)))
      as (td'' & r'' & Hset' & Hthis & _).
    rewrite Hset in Hset'. injection Hset' as <- <-.
    rewrite Hthis in Hleft. cbn in Hleft. congruence.
Qed.

Lemma record_left_was_thrown_witness :
  (getToken first_failure (mkRun ready 0%nat [])).1 =
  Throw (THROTTLED_error
           {| allowRequestsAfter := 1000; backoffCount := 1; httpStatus := Num 500 |}).
Proof.
  apply (record_left_was_thrown first_failure (mkRun ready 0%nat [])).
  vm_compute. reflexivity.
Defined.

(** X4: the collaborator calls of one [getToken] call are, in this order,
    at most one attestation, then at most one exchange, then at most one
    backoff calculation; the attestation is made for the provider's app and
    the exchange with the provider's platform logger.  When no other call on
    the provider overlaps the call (it runs here as one step), the backoff
    calculation asks for attempt 0 with base 1000 and factor 2, whatever
    record the provider held when the call began. *)
Theorem getToken_call_discipline w r :
  exists l,
    calls (getToken w r).2 = calls r ++ l /\
    (l = [] \/
     exists app,
       _app (this r) = Some app /\
       (l = [Ev_getReCAPTCHAToken app] \/
        exists plp tok,
          _platformLoggerProvider (this r) = Some plp /\
          w_getReCAPTCHAToken w app = Resolved tok /\
          let exchange :=
            Ev_exchangeToken (getExchangeRecaptchaTokenRequest app tok) plp in
          (l = [Ev_getReCAPTCHAToken app; exchange] \/
           l = [Ev_getReCAPTCHAToken app; exchange;
                Ev_calculateBackoffMillis 0 1000 2]))).
Proof.
  destruct (getToken_stops_or_attempts w r) as [(td & _ & _ & Heq)|[Hadm Hat]].
  - exists []. rewrite Heq. cbn [snd calls]. split; [by rewrite app_nil_r | by left].
  - destruct (entered_frame r) as (Ea & Ep & _ & Ec).
    pose proof (entered_no_record r) as Hnone.
    inversion Hat as [Hno Hout | app plp reason Ha Hp Hre Hout
                      | app plp tok res Ha Hp Hre Hex Hout
                      | app plp tok e Ha Hp Hre Hex Hcode Hout
                      | app plp tok e td r' Ha Hp Hre Hex Hcode Hset Hout];
      cbn [snd logged calls]; rewrite ?Ec.
    + exists []. split; [by rewrite app_nil_r | by left].
    + eexists. split; [reflexivity|]. right. exists app. rewrite <- Ea. auto.
    + eexists. split; [reflexivity|]. right. exists app. rewrite <- Ea.
      split; [done|]. right. exists plp, tok. rewrite <- Ep. auto.
    + eexists. split; [reflexivity|]. right. exists app. rewrite <- Ea.
      split; [done|]. right. exists plp, tok. rewrite <- Ep. auto.
    + set (r1 := logged [Ev_getReCAPTCHAToken app;
                         Ev_exchangeToken
                           (getExchangeRecaptchaTokenRequest app tok) plp] (entered r)) in *.
      destruct (hard_block (Number w (optional_httpStatus e))) eqn:Hhard.
      * rewrite (_setBackoff_hard w r1 _ Hhard) in Hset. injection Hset as <- <-.
        cbn [calls r1 logged]. rewrite Ec.
        eexists. split; [reflexivity|]. right. exists app. rewrite <- Ea.
        split; [done|]. right. exists plp, tok. rewrite <- Ep. auto.
      * rewrite (_setBackoff_transient w r1 _ Hhard) in Hset. injection Hset as <- <-.
        cbn [calls r1 logged this]. unfold previous_backoffCount. rewrite Hnone, Ec.
        rewrite <- app_assoc.
        eexists. split; [reflexivity|]. right. exists app. rewrite <- Ea.
        split; [done|]. right. exists plp, tok. rewrite <- Ep. auto.
Qed.

Lemma getToken_this_with w r :
  exists throttleData,
    this (getToken w r).2 = with_throttleData throttleData (this r).
Proof.
  assert (Hsame : forall p, with_throttleData (_throttleData p) p = p) by (by intros []).
  destruct (getToken_stops_or_attempts w r) as [(td & Htd & _ & Heq)|[Hadm Hat]].
  - exists (Some td). rewrite Heq. cbn [snd this]. by rewrite <- Htd, Hsame.
  - pose proof (entered_no_record r) as Hnone.
    assert (Hent : this (entered r) = with_throttleData None (this r)).
    { unfold entered. destruct (_throttleData (this r)) eqn:E; [done|].
      by rewrite <- E, Hsame. }
    destruct (attempt_this w (entered r) _ Hnone Hat) as [H|(td & H & _)].
    + exists None. by rewrite H.
    + exists (Some td). by rewrite H, Hent.
Qed.

(** X5: [getToken] writes nothing of the provider but [_throttleData]:
    the app, the platform logger and the site key are after the call what
    they were before it, whatever the state and the world. *)
Theorem getToken_touches_only_throttleData w r :
  _app (this (getToken w r).2) = _app (this r) /\
  _platformLoggerProvider (this (getToken w r).2) = _platformLoggerProvider (this r) /\
  _siteKey (this (getToken w r).2) = _siteKey (this r).
Proof. destruct (getToken_this_with w r) as [throttleData ->]. done. Qed.





End ReCaptchaV3More.

Module CustomMore.
Import CustomProvider CustomFacts Samples.

(** An initialised provider whose callback resolves: the call returns,
    and the timestamp it sets is a trusted one or a clock reading. *)
Lemma custom_getToken_resolved w r app customToken :
  _app (this r) = Some app ->
  w_call w (opt_getToken (_customProviderOptions (this r))) = Resolved customToken ->
  exists ms r',
    getToken w r =
      (Return (<["issuedAtTimeMillis" := JNumber (Num ms)]> customToken), r') /\
    this r' = this r /\
    calls r' = calls r ++ [Ev_call (opt_getToken (_customProviderOptions (this r)))] /\
    ((exists t, 0 < t /\ ms = t * 1000) \/ (exists k, ms = w_clock w k)).
Proof.
  intros Happ Hcall.
  set (r1 := logged [Ev_call (opt_getToken (_customProviderOptions (this r)))] r).
  destruct (w_issuedAtTime w (get_property customToken "token")) as [n|] eqn:Hiat.
  - destruct (classic_trusted w r1 n) as [(t & -> & H0 & H1)|Hno].
    + exists (t * 1000), (mkRun (this r1) (S (ticks r1)) (calls r1)).
      split; [|repeat split; eauto].
      apply (getToken_normalized w r app); try done.
      fold r1. rewrite Hiat. by apply normalize_trusted.
    + exists (w_clock w (S (ticks r1))), (mkRun (this r1) (S (S (ticks r1))) (calls r1)).
      split; [|repeat split; eauto].
      apply (getToken_normalized w r app); try done.
      fold r1. rewrite Hiat. by apply normalize_untrusted.
  - exists (w_clock w (ticks r1)), (mkRun (this r1) (S (ticks r1)) (calls r1)).
    split; [|repeat split; eauto].
    apply (getToken_normalized w r app); try done.
    fold r1. rewrite Hiat. apply normalize_null.
Qed.

Lemma custom_getToken_this w r : this (getToken w r).2 = this r.
Proof.
  destruct (_app (this r)) as [app|] eqn:Happ.
  - destruct (w_call w (opt_getToken (_customProviderOptions (this r))))
      as [customToken|reason] eqn:Hcall.
    + destruct (custom_getToken_resolved w r app customToken Happ Hcall)
        as (ms & r' & -> & Hthis & _). done.
    + by rewrite (getToken_callback_rejected w r app reason Happ Hcall).
  - by rewrite (custom_getToken_uninitialized w r Happ).
Qed.

(** X8: provided [issuedAtTime] returns (a number or [null]),
    [CustomProvider.getToken] ends in one of three ways.  Not initialised:
    it throws the activation error and the callback is not called.
    Initialised and the callback rejects: it throws the callback's own
    reason, unchanged.  Initialised and the callback resolves: it returns
    the callback's token with [issuedAtTimeMillis] set to a number.  The
    callback is called exactly once in the last two cases, and in no case is
    the provider changed. *)
Theorem custom_getToken_outcomes w r :
  let callback := opt_getToken (_customProviderOptions (this r)) in
  (_app (this r) = None /\
   getToken w r =
     (Throw (ERROR_FACTORY_create USE_BEFORE_ACTIVATION (AppNameParams "")), r)) \/
  (exists reason,
     is_Some (_app (this r)) /\
     w_call w callback = Rejected reason /\
     getToken w r = (Throw reason, logged [Ev_call callback] r)) \/
  (exists customToken (issuedAtTimeMillis : number) r',
     is_Some (_app (this r)) /\
     w_call w callback = Resolved customToken /\
     getToken w r =
       (Return (<["issuedAtTimeMillis" := JNumber issuedAtTimeMillis]> customToken),
        r') /\
     this r' = this r /\
     calls r' = calls r ++ [Ev_call callback]).
Proof.
  intros callback.
  destruct (_app (this r)) as [app|] eqn:Happ.
  - destruct (w_call w callback) as [customToken|reason] eqn:Hcall.
    + right; right.
      destruct (custom_getToken_resolved w r app customToken Happ Hcall)
        as (ms & r' & Heq & Hthis & Hcalls & _).
      exists customToken, (Num ms), r'. eauto 10.
    + right; left. exists reason. split; [eauto|]. split; [done|].
      by apply (getToken_callback_rejected w r app).
  - left. split; [done|]. by apply custom_getToken_uninitialized.
Qed.

(** X9: the [issuedAtTimeMillis] that [CustomProvider.getToken] returns is
    greater than zero whenever the clock is: a trusted timestamp is greater
    than zero by the test that trusts it, and every other case takes a clock
    reading.  Shown for the timestamps this development carries: whole
    numbers of seconds, [NaN], and none. *)
Theorem custom_issuedAtTimeMillis_positive w r (result : gmap string jsval) r' :
  (forall k, 0 < w_clock w k) ->
  getToken w r = (Return result, r') ->
  exists ms, result !! "issuedAtTimeMillis" = Some (JNumber (Num ms)) /\ 0 < ms.
Proof.
  intros Hclock Hret.
  destruct (_app (this r)) as [app|] eqn:Happ.
  - destruct (w_call w (opt_getToken (_customProviderOptions (this r))))
      as [customToken|reason] eqn:Hcall.
    + destruct (custom_getToken_resolved w r app customToken Happ Hcall)
        as (ms & r'' & Heq & _ & _ & Hms).
      rewrite Heq in Hret. injection Hret as <- _.
      exists ms. split; [apply lookup_insert_eq|].
      destruct Hms as [(t & H0 & ->)|(k & ->)]; [lia|apply Hclock].
    + rewrite (getToken_callback_rejected w r app reason Happ Hcall) in Hret.
      discriminate.
  - rewrite (custom_getToken_uninitialized w r Happ) in Hret. discriminate.
Qed.

Lemma custom_issuedAtTimeMillis_positive_witness :
  exists ms,
    (<["issuedAtTimeMillis" := JNumber (Num 1700000100000)]> custom_token
       : gmap string jsval) !! "issuedAtTimeMillis" = Some (JNumber (Num ms)) /\
    0 < ms.
Proof.
  refine (custom_issuedAtTimeMillis_positive
            (custom_world 1700000100000 None) (mkRun custom_ready 0%nat [])
            _ (mkRun custom_ready 1%nat [Ev_call callback0]) _ eq_refl).
  intros k. simpl. lia.
Defined.

End CustomMore.

(** ** isEqual, continued *)

(** X10: [isEqual] is transitive on providers. *)
Theorem isEqual_transitive a b c :
  isEqual a (as_unknown b) = true ->
  isEqual b (as_unknown c) = true ->
  isEqual a (as_unknown c) = true.
Proof.
  destruct a as [p|p], b as [q|q], c as [s|s]; simpl; try discriminate;
    rewrite !String.eqb_eq; congruence.
Qed.

Lemma isEqual_transitive_witness :
  isEqual (Custom Samples.custom_ready)
          (as_unknown (Custom (CustomProvider.new {| opt_getToken := Samples.callback0 |})))
  = true.
Proof.
  exact (isEqual_transitive
           (Custom Samples.custom_ready) (Custom Samples.custom_ready)
           (Custom (CustomProvider.new {| opt_getToken := Samples.callback0 |}))
           eq_refl eq_refl).
Defined.

(** X11: [isEqual] does not see what [getToken] and [initialize] change:
    a provider compares with any value, and any provider compares with it,
    after such a call exactly as before. *)
Theorem isEqual_ignores_calls w app a :
  (forall o,
     isEqual (after_getToken w a) o = isEqual a o /\
     isEqual (after_initialize app w a) o = isEqual a o) /\
  (forall b,
     isEqual b (as_unknown (after_getToken w a)) = isEqual b (as_unknown a) /\
     isEqual b (as_unknown (after_initialize app w a)) = isEqual b (as_unknown a)).
Proof.
  destruct a as [p|p]; cbn [after_getToken after_initialize].
  - destruct (ReCaptchaV3More.getToken_this_with w (mkRun p 0%nat [])) as [td Hth].
    unfold exec. rewrite Hth. cbn [this].
    split; [intros [q|q|v] | intros [q|q]]; split; reflexivity.
  - unfold exec. rewrite CustomMore.custom_getToken_this. cbn [this].
    split; [intros [q|q|v] | intros [q|q]]; split; reflexivity.
Qed.

(** * Strings *)

Module StringFacts.

Lemma append_cons a (s t : string) : String a s +:+ t = String a (s +:+ t).
Proof. reflexivity. Qed.

Lemma append_assoc (s t u : string) : (s +:+ t) +:+ u = s +:+ (t +:+ u).
Proof. induction s as [|a s IH]; [done|]. by rewrite !append_cons, IH. Qed.

Lemma prefix_append (s1 s2 : string) :
  String.prefix s1 s2 = true <-> exists rest, s2 = s1 +:+ rest.
Proof.
  revert s2. induction s1 as [|a s1 IH]; intros s2; simpl.
  - split; [intros _; by exists s2 | by destruct s2].
  - destruct s2 as [|b s2]; simpl.
    + split; [discriminate | intros [rest H]; discriminate].
    + destruct (Ascii.ascii_dec a b) as [->|Hne].
      * rewrite IH. split; intros [rest H]; exists rest;
          rewrite append_cons in *; congruence.
      * split; [discriminate | intros [rest H]; rewrite append_cons in H; congruence].
Qed.

Lemma append_inj_l (s t u : string) : s +:+ t = s +:+ u -> t = u.
Proof.
  induction s as [|a s IH]; [done|]. rewrite !append_cons. intros [= H]. auto.
Qed.

End StringFacts.

(** * The [external] predicate of the rollup configurations *)

Module RollupFacts.
Import Rollup StringFacts.

Lemma elem_of_Object_keys (o : gmap string string) k :
  k ∈ Object_keys o <-> is_Some (o !! k).
Proof.
  unfold Object_keys. rewrite list_elem_of_fmap. split.
  - intros ([k' v] & -> & H). apply elem_of_map_to_list in H. eauto.
  - intros [v H]. exists (k, v). split; [done|]. by apply elem_of_map_to_list.
Qed.

Lemma elem_of_deps pkg dep :
  dep ∈ deps pkg <->
  is_Some (default ∅ (peerDependencies pkg) !! dep) \/
  is_Some (default ∅ (dependencies pkg) !! dep).
Proof.
  unfold deps, Object_assign. rewrite elem_of_Object_keys.
  rewrite <- !elem_of_dom, dom_union, elem_of_union. tauto.
Qed.

Lemma external_spec ds id :
  external ds id = true <->
  exists dep, dep ∈ ds /\ (id = dep \/ exists rest, id = dep +:+ "/" +:+ rest).
Proof.
  unfold external, startsWith. rewrite existsb_exists. split.
  - intros (dep & Hin & H). exists dep. split; [by apply list_elem_of_In|].
    apply orb_true_iff in H as [H|H].
    + left. by apply String.eqb_eq.
    + right. apply prefix_append in H as [rest ->]. exists rest.
      by rewrite append_assoc.
  - intros (dep & Hin & H). exists dep. split; [by apply list_elem_of_In|].
    apply orb_true_iff. destruct H as [->|[rest ->]].
    + left. apply String.eqb_refl.
    + right. apply prefix_append. exists rest. by rewrite append_assoc.
Qed.

(** X12: a module id is external exactly when it is a package named in
    [peerDependencies] or [dependencies], or a path below one: the id is the
    name itself, or the name, a [/], and anything after it. *)
Theorem external_iff_declared pkg id :
  external (deps pkg) id = true <->
  exists dep,
    (is_Some (default ∅ (peerDependencies pkg) !! dep) \/
     is_Some (default ∅ (dependencies pkg) !! dep)) /\
    (id = dep \/ exists rest, id = dep +:+ "/" +:+ rest).
Proof.
  rewrite external_spec. split; intros (dep & Hdep & H); exists dep;
    (split; [by apply elem_of_deps|done]).
Qed.

(** X13: characters added after the name of a declared package keep the
    id external exactly when there are none or the first of them is [/];
    a longer package name that merely begins with a declared one is not
    external on its account. *)
Theorem external_suffix dep suffix :
  external [dep] (dep +:+ suffix) = true <->
  suffix = "" \/ exists rest, suffix = "/" +:+ rest.
Proof.
  rewrite external_spec. split.
  - intros (dep' & ->%list_elem_of_singleton & [H|[rest H]]).
    + left. apply (append_inj_l dep). rewrite H.
      clear. induction dep as [|a s IH]; [done|]. by rewrite append_cons, <- IH.
    + right. exists rest. by apply (append_inj_l dep).
  - intros [->|[rest ->]]; exists dep; (split; [by apply list_elem_of_singleton|]).
    + left. clear. induction dep as [|a s IH]; [done|]. by rewrite append_cons, IH.
    + right. by exists rest.
Qed.

(** X14: everything below an external module is external, and declaring
    more packages never makes an external module internal. *)
Theorem external_closed ds id :
  external ds id = true ->
  (forall path, external ds (id +:+ "/" +:+ path) = true) /\
  (forall more, external (more ++ ds) id = true /\ external (ds ++ more) id = true).
Proof.
  intros (dep & Hin & H)%external_spec. split.
  - intros path. apply external_spec. exists dep. split; [done|]. right.
    destruct H as [->|[rest ->]]; [by exists path|].
    exists (rest +:+ "/" +:+ path).
    rewrite <- !append_assoc. reflexivity.
  - intros more. split; apply external_spec; exists dep;
      (split; [apply elem_of_app; auto | done]).
Qed.

Lemma external_closed_witness :
  external ["@firebase/app"; "tslib"] ("@firebase/app" +:+ "/" +:+ "dist/index.js") = true.
Proof.
  exact (proj1 (external_closed ["@firebase/app"; "tslib"] "@firebase/app" eq_refl)
           "dist/index.js").
Defined.

End RollupFacts.

(** * The bundle-size script *)

Module SizeAnalysisFacts.
Import SizeAnalysis StringFacts.

Lemma assoc_set_eq k v ps : assoc k (assoc_set k v ps) = Some v.
Proof.
  induction ps as [|[k' v'] ps IH]; simpl.
  - by rewrite String.eqb_refl.
  - destruct (String.eqb k' k) eqn:E; simpl.
    + by rewrite String.eqb_refl.
    + by rewrite E.
Qed.

Lemma assoc_set_ne k k' v ps : k' <> k -> assoc k' (assoc_set k v ps) = assoc k' ps.
Proof.
  intros Hne. induction ps as [|[k0 v0] ps IH]; simpl.
  - destruct (String.eqb k k') eqn:E; [|done].
    apply String.eqb_eq in E. congruence.
  - destruct (String.eqb k0 k) eqn:E; simpl.
    + apply String.eqb_eq in E as ->.
      destruct (String.eqb k k') eqn:E'; [|done].
      apply String.eqb_eq in E'. congruence.
    + by rewrite IH.
Qed.

Lemma assoc_set_twice k v1 v2 ps :
  assoc_set k v2 (assoc_set k v1 ps) = assoc_set k v2 ps.
Proof.
  induction ps as [|[k' v'] ps IH]; simpl.
  - by rewrite String.eqb_refl.
  - destruct (String.eqb k' k) eqn:E; simpl.
    + by rewrite String.eqb_refl.
    + by rewrite E, IH.
Qed.

Lemma for_of_length {A B} (body : A -> Outcome B) l l' :
  for_of body l = Returns l' -> length l' = length l.
Proof.
  revert l'. induction l as [|x l IH]; intros l'; simpl.
  - by intros [= <-].
  - unfold mbind, Outcome_bind, mret, Outcome_ret.
    destruct (body x); [|discriminate].
    destruct (for_of body l); [|discriminate].
    intros [= <-]. simpl. f_equal. by apply IH.
Qed.

Lemma for_of_Forall2 {A B} (body : A -> Outcome B) l l' :
  for_of body l = Returns l' <-> Forall2 (fun x y => body x = Returns y) l l'.
Proof.
  revert l'. induction l as [|x l IH]; intros l'; simpl.
  - split; [intros [= <-]; constructor | by inversion 1].
  - unfold mbind, Outcome_bind, mret, Outcome_ret. split.
    + destruct (body x) as [y|] eqn:Hx; [|discriminate].
      destruct (for_of body l) as [ys|]; [|discriminate].
      intros [= <-]. constructor; [done|]. by apply IH.
    + inversion 1 as [|? y ? ys Hx Hrest]; subst.
      rewrite Hx. apply IH in Hrest. by rewrite Hrest.
Qed.

Lemma for_of_throws {A B} (body : A -> Outcome B) l x e :
  x ∈ l ->
  body x = Throws e ->
  (forall y e', body y = Throws e' -> e' = e) ->
  for_of body l = Throws e.
Proof.
  intros Hin Hx Hall. induction l as [|y l IH]; [by apply elem_of_nil in Hin|].
  simpl. unfold mbind, Outcome_bind.
  destruct (body y) as [b|e'] eqn:Hy.
  - apply elem_of_cons in Hin as [->|Hin]; [congruence|].
    by rewrite (IH Hin).
  - f_equal. by apply (Hall y).
Qed.

Lemma for_of_characters_throws {B} (body : json -> Outcome B) s l :
  (forall c, body (Json_string c) = Throws TypeError) ->
  for_of body (characters s) = Returns l -> s = "" /\ l = [].
Proof.
  intros Hbody. destruct s as [|c s]; simpl.
  - by intros [= <-].
  - unfold mbind, Outcome_bind. by rewrite Hbody.
Qed.

Lemma set_versionOrTag_versioned version dependency dependency' :
  set_versionOrTag version dependency = Returns dependency' ->
  versioned version dependency dependency'.
Proof.
  destruct dependency; simpl; try discriminate; intros [= <-]; simpl; [done|].
  split; [apply assoc_set_eq | intros k Hk; by apply assoc_set_ne].
Qed.

Lemma set_versionOrTag_again v1 v2 dependency dependency' :
  set_versionOrTag v1 dependency = Returns dependency' ->
  set_versionOrTag v2 dependency' = set_versionOrTag v2 dependency.
Proof.
  destruct dependency; simpl; try discriminate; intros [= <-]; simpl; [done|].
  by rewrite assoc_set_twice.
Qed.

Lemma for_of_again {A B} (f : A -> Outcome A) (g : A -> Outcome B) l l1 :
  (forall x y, f x = Returns y -> g y = g x) ->
  for_of f l = Returns l1 ->
  for_of g l1 = for_of g l.
Proof.
  intros Hfg. revert l1. induction l as [|x l IH]; intros l1; simpl.
  - by intros [= <-].
  - unfold mbind, Outcome_bind, mret, Outcome_ret.
    destruct (f x) as [y|] eqn:Hx; [|discriminate].
    destruct (for_of f l) as [ys|] eqn:Hl; [|discriminate].
    intros [= <-]. simpl. unfold mbind, Outcome_bind, mret, Outcome_ret.
    by rewrite (Hfg x y Hx), (IH ys eq_refl).
Qed.

(** What the inner loop accepts, and what it then returns. *)
Lemma overwrite_dependencies_returns version definition definition' :
  overwrite_dependencies version definition = Returns definition' ->
  exists ps,
    definition = Json_object ps /\
    ((exists items items',
        assoc "dependencies" ps = Some (Json_array items) /\
        for_of (set_versionOrTag version) items = Returns items' /\
        definition' =
          Json_object (assoc_set "dependencies" (Json_array items') ps)) \/
     (assoc "dependencies" ps = Some (Json_string "") /\ definition' = definition)).
Proof.
  unfold overwrite_dependencies, mbind, Outcome_bind, mret, Outcome_ret.
  destruct definition as [| | | | |ps]; simpl; try discriminate.
  destruct (assoc "dependencies" ps) as [[| | |s|items|]|] eqn:Hdeps;
    simpl; try discriminate.
  - destruct (for_of (set_versionOrTag version) (characters s)) as [l|] eqn:Hl;
      [|discriminate].
    apply for_of_characters_throws in Hl as [-> ->]; [|done].
    intros [= <-]. exists ps. split; [done|]. by right.
  - destruct (for_of (set_versionOrTag version) items) as [items'|] eqn:Hl;
      [|discriminate].
    intros [= <-]. exists ps. split; [done|]. left. by exists items, items'.
Qed.

Lemma overwrite_dependencies_again v1 v2 definition definition' :
  overwrite_dependencies v1 definition = Returns definition' ->
  overwrite_dependencies v2 definition' = overwrite_dependencies v2 definition.
Proof.
  intros H.
  destruct (overwrite_dependencies_returns v1 _ _ H)
    as (ps & -> & [(items & items' & Hdeps & Hfor & ->)|[_ ->]]); [|done].
  unfold overwrite_dependencies, mbind, Outcome_bind, mret, Outcome_ret. simpl.
  rewrite assoc_set_eq, Hdeps. simpl.
  rewrite (for_of_again _ _ items items' (set_versionOrTag_again v1 v2) Hfor).
  destruct (for_of (set_versionOrTag v2) items); [|done].
  by rewrite assoc_set_twice.
Qed.

(** What the outer loop accepts, and what it then returns. *)
Lemma overwrite_definitions_returns version definitions result :
  overwrite_definitions version definitions = Returns result ->
  (exists items items',
     definitions = Json_array items /\
     for_of (overwrite_dependencies version) items = Returns items' /\
     result = Json_array items') \/
  (definitions = Json_string "" /\ result = definitions).
Proof.
  unfold overwrite_definitions, mbind, Outcome_bind, mret, Outcome_ret.
  destruct definitions as [| | |s|items|]; simpl; try discriminate.
  - destruct (for_of (overwrite_dependencies version) (characters s)) as [l|] eqn:Hl;
      [|discriminate].
    apply for_of_characters_throws in Hl as [-> ->]; [|done].
    intros [= <-]. by right.
  - destruct (for_of (overwrite_dependencies version) items) as [items'|] eqn:Hl;
      [|discriminate].
    intros [= <-]. left. by exists items, items'.
Qed.

(** X15: when the loops of [overwriteVersion] complete, the value they
    leave is the array of the same definitions in the same order, where each
    definition keeps all its properties but [dependencies], and
    [dependencies] is the array of the same dependencies in the same order,
    each with [versionOrTag] equal to [version] and every other property as
    before.  (The only other values the loops accept are the empty string
    for the whole and for a [dependencies], which they leave alone.) *)
Theorem overwrite_definitions_sets_every_version version definitions result :
  overwrite_definitions version definitions = Returns result ->
  (exists items items',
     definitions = Json_array items /\
     result = Json_array items' /\
     Forall2 (rewritten version) items items') \/
  (definitions = Json_string "" /\ result = definitions).
Proof.
  intros H.
  destruct (overwrite_definitions_returns _ _ _ H)
    as [(items & items' & -> & Hfor & ->)|?]; [left|by right].
  exists items, items'. split; [done|]. split; [done|].
  apply for_of_Forall2 in Hfor.
  eapply Forall2_impl; [exact Hfor|].
  intros d d' Hd. cbn beta in Hd.
  destruct (overwrite_dependencies_returns _ _ _ Hd)
    as (ps & -> & [(deps & deps' & Hdeps & Hset & ->)|[Hdeps ->]]);
    exists ps; (split; [done|]); [left|by right].
  exists deps, deps', (assoc_set "dependencies" (Json_array deps') ps).
  split; [done|]. split; [done|]. split; [apply assoc_set_eq|]. split.
  - apply for_of_Forall2 in Hset.
    eapply Forall2_impl; [exact Hset|].
    intros x y Hxy. by apply set_versionOrTag_versioned.
  - intros k Hk. by apply assoc_set_ne.
Qed.

Lemma overwrite_definitions_sets_every_version_witness :
  (exists items items',
     definitions_at "latest" = Json_array items /\
     definitions_at "9.1.3" = Json_array items' /\
     Forall2 (rewritten "9.1.3") items items') \/
  (definitions_at "latest" = Json_string "" /\
   definitions_at "9.1.3" = definitions_at "latest").
Proof.
  exact (overwrite_definitions_sets_every_version
           "9.1.3" (definitions_at "latest") (definitions_at "9.1.3") eq_refl).
Defined.

(** X16: the last version wins: running the loops with [v2] on what they
    left for [v1] gives what running them with [v2] on the original gives;
    in particular a second run with the same version changes nothing. *)
Theorem overwrite_definitions_last_wins v1 v2 definitions result :
  overwrite_definitions v1 definitions = Returns result ->
  overwrite_definitions v2 result = overwrite_definitions v2 definitions /\
  overwrite_definitions v1 result = Returns result.
Proof.
  intros H.
  assert (Hagain : forall v, overwrite_definitions v result =
                             overwrite_definitions v definitions).
  { intros v.
    destruct (overwrite_definitions_returns _ _ _ H)
      as [(items & items' & -> & Hfor & ->)|[_ ->]]; [|done].
    unfold overwrite_definitions, mbind, Outcome_bind, mret, Outcome_ret. simpl.
    by rewrite (for_of_again _ _ items items'
                  (fun x y => overwrite_dependencies_again v1 v x y) Hfor). }
  split; [apply Hagain|]. by rewrite Hagain.
Qed.

Lemma overwrite_definitions_last_wins_witness :
  overwrite_definitions "9.1.3" (definitions_at "9.0.0") =
  overwrite_definitions "9.1.3" (definitions_at "latest").
Proof.
  exact (proj1 (overwrite_definitions_last_wins
                  "9.0.0" "9.1.3" (definitions_at "latest") (definitions_at "9.0.0")
                  eq_refl)).
Defined.

(** Case analysis on a scrutinee that has no [match] inside it. *)
#[local] Ltac innermost_case :=
  match goal with
  | |- context [match ?x with _ => _ end] =>
      lazymatch x with
      | context [match _ with _ => _ end] => fail
      | _ => destruct x
      end
  end.

Lemma analysis_row_throws h product analysis e :
  analysis_row h product analysis = Throws e -> e = TypeError.
Proof.
  unfold analysis_row, sdk_name, first, property, mbind, Outcome_bind,
    mret, Outcome_ret.
  repeat innermost_case; congruence.
Qed.

(** X18: when [parseAnalysisOutput] returns, it returns one row per
    element of the parsed array, in order; each row has [type] ["bundle"],
    an [sdk] of the form [product (name)], and for [size] the [size]
    property of the first element of that analysis's [results]. *)
Theorem parseAnalysisOutput_rows h product output fs rows :
  parseAnalysisOutput h product output fs = Returns rows ->
  exists text analyses items,
    fs !! output = Some text /\
    JSON_parse h text = Some analyses /\
    iterate (Some analyses) = Returns items /\
    Forall2
      (fun analysis row =>
         type row = "bundle" /\
         (exists name, sdk row = product +:+ " (" +:+ name +:+ ")") /\
         exists results result0,
           property analysis "results" = Returns results /\
           first results = Returns (Some result0) /\
           property result0 "size" = Returns (size row))
      items rows.
Proof.
  unfold parseAnalysisOutput, readFileSync, parse, mbind, Outcome_bind.
  destruct (fs !! output) as [text|] eqn:Hfs; [|discriminate].
  destruct (JSON_parse h text) as [analyses|] eqn:Hparse; [|discriminate].
  destruct (iterate (Some analyses)) as [items|] eqn:Hiter; [|discriminate].
  intros Hrows. exists text, analyses, items. repeat (split; [done|]).
  apply for_of_Forall2 in Hrows.
  eapply Forall2_impl; [exact Hrows|].
  intros analysis row. cbn beta.
  unfold analysis_row, mbind, Outcome_bind, mret, Outcome_ret.
  destruct (property analysis "name") as [name|]; [|discriminate].
  destruct (sdk_name h product name) as [sdk0|] eqn:Hsdk; [|discriminate].
  destruct (property analysis "results") as [results|]; [|discriminate].
  destruct (first results) as [[result0|]|] eqn:Hfirst; try discriminate.
  destruct (property result0 "size") as [size0|] eqn:Hsize; [|discriminate].
  intros [= <-]. cbn [type sdk size]. split; [done|]. split.
  - unfold sdk_name, mbind, Outcome_bind, mret, Outcome_ret in Hsdk.
    destruct name as [[| | |s| |]|];
      try (destruct (ToString h _); [|discriminate]);
      injection Hsdk as <-; eauto.
  - exists results, result0. done.
Qed.

Lemma parseAnalysisOutput_rows_witness :
  exists text analyses items,
    files0 !! "/tmp/run/app.analysis.json" = Some text /\
    JSON_parse host0 text = Some analyses /\
    iterate (Some analyses) = Returns items /\
    Forall2
      (fun analysis row =>
         type row = "bundle" /\
         (exists name, sdk row = "app" +:+ " (" +:+ name +:+ ")") /\
         exists results result0,
           property analysis "results" = Returns results /\
           first results = Returns (Some result0) /\
           property result0 "size" = Returns (size row))
      items
      [{| sdk := "app (initializeApp)"; type := "bundle";
          size := Some (Json_number "12345") |}].
Proof.
  exact (parseAnalysisOutput_rows host0 "app" "/tmp/run/app.analysis.json" files0
           [{| sdk := "app (initializeApp)"; type := "bundle";
               size := Some (Json_number "12345") |}] eq_refl).
Defined.

(** X19: one analysis whose [results] is an empty array makes
    [parseAnalysisOutput] throw a [TypeError], whatever the other
    analyses are: no rows are returned for any of them. *)
Theorem parseAnalysisOutput_empty_results h product output fs text items analysis ps :
  fs !! output = Some text ->
  JSON_parse h text = Some (Json_array items) ->
  analysis ∈ items ->
  analysis = Json_object ps ->
  assoc "results" ps = Some (Json_array []) ->
  parseAnalysisOutput h product output fs = Throws TypeError.
Proof.
  intros Hfs Hparse Hin -> Hresults.
  unfold parseAnalysisOutput, readFileSync, parse, mbind, Outcome_bind.
  rewrite Hfs, Hparse. cbn [iterate].
  apply (for_of_throws _ items (Json_object ps)); [done| |].
  - destruct (analysis_row h product (Json_object ps)) as [row|e] eqn:E.
    + exfalso. unfold analysis_row, mbind, Outcome_bind in E.
      cbn [property] in E. rewrite Hresults in E.
      destruct (sdk_name h product (assoc "name" ps)); discriminate.
    + f_equal. by apply (analysis_row_throws h product (Json_object ps)).
  - intros y e'. apply analysis_row_throws.
Qed.

Lemma parseAnalysisOutput_empty_results_witness :
  parseAnalysisOutput host0 "empty" "/tmp/run/empty.analysis.json" files0 =
  Throws TypeError.
Proof.
  refine (parseAnalysisOutput_empty_results
            host0 "empty" "/tmp/run/empty.analysis.json" files0
            "analyses without results"
            [Json_object [("name", Json_string "initializeApp");
                          ("results", Json_array [])]]
            (Json_object [("name", Json_string "initializeApp");
                          ("results", Json_array [])])
            [("name", Json_string "initializeApp"); ("results", Json_array [])]
            eq_refl eq_refl _ eq_refl eq_refl).
  apply list_elem_of_singleton. reflexivity.
Defined.

End SizeAnalysisFacts.
